(** * exclude_seqs_by_blast: screening query sequences against a subject database

    A shallow embedding of [scripts/exclude_seqs_by_blast.py] (QIIME 1.8.0-dev)
    and the properties of its hit-filtering and partitioning pipeline.

    The script is Python 2.  Its numbers are Python floats (IEEE binary64),
    modelled by Rocq's primitive floats; identifier sets are Python [set]s of
    strings, modelled by [gset string]; the effects of [main] (external tools,
    files opened, written and removed) are recorded in order in a trace, and
    a file that the run reads after having written it holds what the run
    wrote.
    Console output printed under [options.verbose] and the wall-clock
    measurements of [time()] have no influence on the pipeline and are left
    out of the model. *)

From Stdlib Require Import ZArith List Ascii String Floats Permutation Lia.
From stdpp Require Import base gmap sets list strings.

Local Open Scope string_scope.

#[local] Set Warnings "-inexact-float,-clear-no-such-hyp".

(** ** Floating point order *)

(** Python's [a <= b] on floats is the IEEE comparison: false as soon as one
    side is a NaN. *)
Definition float_le (a b : float) : bool := (a <=? b)%float.

(** Python's [a >= b]. *)
Definition float_ge (a b : float) : bool := (b <=? a)%float.

(** Conversion of a Python [int] to a float, rounding to nearest even. *)
Definition float_of_int (z : Z) : float :=
  SF2Prim (binary_normalize prec emax z 0 false).

(** True division of two integers ([alignment_length / query_length]).  For
    operands below [2^53] the conversions are exact and the quotient is the
    correctly rounded one, as Python computes it. *)
Definition int_truediv (a b : Z) : float :=
  (float_of_int a / float_of_int b)%float.

(** ** Paths ([os.path], POSIX flavour) *)

Definition path := string.

Definition startswith (s pre : string) : bool := String.prefix pre s.

Fixpoint endswith_slash (s : string) : bool :=
  match s with
  | EmptyString => false
  | String c EmptyString => bool_decide (c = "/"%char)
  | String _ rest => endswith_slash rest
  end.

(** [posixpath.join(a, b)]. *)
Definition join (a b : path) : path :=
  if startswith b "/" then b
  else if bool_decide (a = "") || endswith_slash a then a +:+ b
  else a +:+ "/" +:+ b.

(** [posixpath.split(p)]: the text up to the last slash, without trailing
    slashes unless it consists of slashes only, and the text after it. *)
Fixpoint split_rev (acc : list ascii) (r : list ascii) : list ascii * list ascii :=
  match r with
  | [] => ([], acc)
  | c :: r' => if bool_decide (c = "/"%char) then (r, acc) else split_rev (c :: acc) r'
  end.

Fixpoint drop_slashes (r : list ascii) : list ascii :=
  match r with
  | c :: r' => if bool_decide (c = "/"%char) then drop_slashes r' else r
  | [] => []
  end.

Definition split (p : path) : path * path :=
  let '(rhead, tail) := split_rev [] (rev (list_ascii_of_string p)) in
  let rhead' := match drop_slashes rhead with [] => rhead | r => r end in
  (string_of_list_ascii (rev rhead'), string_of_list_ascii tail).

(** ** Errors *)

(** The ways a run aborts.  [ConfigurationError msg] is
    [option_parser.error(msg)], which prints the message and exits; the other
    constructors are exceptions that escape [main]. *)
Inductive error : Type :=
  | ConfigurationError (msg : string)
  | ParseError (msg : string)
  | ConsistencyError (query : string)
  | ExternalToolFailure (tool : string)
  | IOError (p : path).

Definition result (A : Type) : Type := error + A.

(** ** The option table ([script_info]) *)

Inductive optval : Type :=
  | VNone
  | VFloat (f : float)
  | VInt (z : Z)
  | VBool (b : bool)
  | VStr (s : string).

Inductive opt_type : Type :=
  | TString | TFloat | TInt | TExistingFilepath | TExistingDirpath | TNewDirpath.

Inductive opt_action : Type :=
  | Store (ty : opt_type)
  | StoreTrue.

(** One [make_option(...)] entry; the help text is not kept. *)
Record make_option : Type := MakeOption {
  opt_flags : list string;
  opt_dest : string;
  opt_action_of : opt_action;
  opt_default : optval
}.

Definition required_options : list make_option :=
  [ MakeOption ["-i"; "--querydb"] "querydb" (Store TExistingFilepath) VNone;
    MakeOption ["-d"; "--subjectdb"] "subjectdb" (Store TExistingFilepath) VNone;
    MakeOption ["-o"; "--outputdir"] "outputdir" (Store TNewDirpath) VNone ].

(** [script_info['optional_options']]; [temp_dir] is the value of
    [get_qiime_temp_dir()] when the module is loaded. *)
Definition optional_options (temp_dir : path) : list make_option :=
  [ MakeOption ["-e"; "--e_value"] "e_value" (Store TFloat) (VFloat 1e-10);
    MakeOption ["-p"; "--percent_aligned"] "percent_aligned" (Store TFloat) (VFloat 0.97);
    MakeOption ["--no_clean"] "no_clean" StoreTrue (VBool false);
    MakeOption ["--blastmatroot"] "blastmatroot" (Store TExistingDirpath) VNone;
    MakeOption ["--working_dir"] "working_dir" (Store TExistingDirpath) (VStr temp_dir);
    MakeOption ["-m"; "--max_hits"] "max_hits" (Store TInt) (VInt 100);
    MakeOption ["-w"; "--word_size"] "wordsize" (Store TInt) (VInt 28);
    MakeOption ["-n"; "--no_format_db"] "no_format_db" StoreTrue (VBool false) ].

Definition script_options (temp_dir : path) : list make_option :=
  required_options ++ optional_options temp_dir.

(** The values an option parser starts from: every destination bound to its
    default. *)
Definition defaults (opts : list make_option) : gmap string optval :=
  foldl (fun vals o => <[opt_dest o := opt_default o]> vals) ∅ opts.

Definition find_option (opts : list make_option) (flag : string) : option make_option :=
  find (fun o => bool_decide (flag ∈ opt_flags o)) opts.

(** A command line, after tokenising and type conversion: the flags in the
    order given, each with its converted argument (ignored by [store_true]
    flags).  A [store] flag stores its argument, a [store_true] flag stores
    [True], an unknown flag is an error of the parser. *)
Fixpoint parse_args (opts : list make_option) (args : list (string * optval))
    (vals : gmap string optval) : result (gmap string optval) :=
  match args with
  | [] => inr vals
  | (flag, v) :: rest =>
      match find_option opts flag with
      | None => inl (ConfigurationError ("no such option: " +:+ flag))
      | Some o =>
          let v' := match opt_action_of o with StoreTrue => VBool true | Store _ => v end in
          parse_args opts rest (<[opt_dest o := v']> vals)
      end
  end.

Definition parse_command_line (temp_dir : path) (args : list (string * optval))
    : result (gmap string optval) :=
  parse_args (script_options temp_dir) args (defaults (script_options temp_dir)).

(** The attributes of [options] that [main] reads. *)
Record Options : Type := MkOptions {
  querydb : path;
  subjectdb : path;
  outputdir : path;
  e_value : float;
  percent_aligned : float;
  no_clean : bool;
  blastmatroot : option path;
  working_dir : path;
  max_hits : Z;
  wordsize : Z;
  no_format_db : bool
}.

Definition get_str (vals : gmap string optval) (d : string) : option string :=
  match vals !! d with Some (VStr s) => Some s | _ => None end.
Definition get_float (vals : gmap string optval) (d : string) : option float :=
  match vals !! d with Some (VFloat f) => Some f | _ => None end.
Definition get_int (vals : gmap string optval) (d : string) : option Z :=
  match vals !! d with Some (VInt z) => Some z | _ => None end.
Definition get_bool (vals : gmap string optval) (d : string) : option bool :=
  match vals !! d with Some (VBool b) => Some b | _ => None end.

Definition options_of_values (vals : gmap string optval) : option Options :=
  q ← get_str vals "querydb";
  s ← get_str vals "subjectdb";
  o ← get_str vals "outputdir";
  e ← get_float vals "e_value";
  p ← get_float vals "percent_aligned";
  nc ← get_bool vals "no_clean";
  wd ← get_str vals "working_dir";
  m ← get_int vals "max_hits";
  ws ← get_int vals "wordsize";
  nf ← get_bool vals "no_format_db";
  Some (MkOptions q s o e p nc (get_str vals "blastmatroot") wd m ws nf).

(** ** Data model *)

(** One record of a sequence file: the identifier taken from its label line
    and the sequence itself. *)
Record SequenceRecord : Type := MkSeq {
  seq_id : string;
  seq_data : string
}.

(** One row of the search engine's tabular output. *)
Record AlignmentRecord : Type := MkAln {
  query_id : string;
  subject_id : string;
  percent_identity : float;
  alignment_length : Z;
  mismatches : Z;
  gap_openings : Z;
  expectation_value : float;
  bit_score : float
}.

(** What [compose_logfile_lines] is given, apart from the timings and the
    debug flag: the text of the log is rendered from these. *)
Record Report : Type := MkReport {
  rep_option_lines : list string;
  rep_options : Options;
  rep_formatdb_cmd : string;
  rep_blast_results : list string;
  rep_all_ids : list string;
  rep_hit_ids : gset string;
  rep_removed_hit_ids : gset string;
  rep_included_ids : gset string
}.

Inductive content : Type :=
  | RawLines (lines : list string)
  | FastaRecords (records : list SequenceRecord)
  | LogLines (report : Report).

(** ** Effects *)

(** The outward effects of a run, in the order they happen: the call of
    formatdb, a file opened for reading, the external search, the call of
    [makedirs], a file written and closed, and the call
    [remove_files(ps)] of skbio, which deletes the files [ps]. *)
Inductive event : Type :=
  | EvFormatDb (subject_dir subject_db : path)
  | EvOpenRead (p : path)
  | EvBlast (query subject : path) (e : float) (hits : Z) (wd : path)
            (matroot : option path) (word : Z)
  | EvMakedirs (p : path)
  | EvWrite (p : path) (c : content)
  | EvRemove (ps : list path).

(** A computation emits events and either aborts with an error or returns. *)
Definition M (A : Type) : Type := list event * result A.

Definition ret {A} (a : A) : M A := ([], inr a).

Definition bind {A B} (m : M A) (f : A -> M B) : M B :=
  match m with
  | (t, inl e) => (t, inl e)
  | (t, inr a) => let '(t', r) := f a in ((t ++ t')%list, r)
  end.

Definition emit (ev : event) : M unit := ([ev], inr tt).

Definition raise {A} (e : error) : M A := ([], inl e).

Definition lift {A} (r : result A) : M A := ([], r).

Declare Scope run_scope.
Delimit Scope run_scope with run.
Notation "x <- m ;; k" := (bind m (fun x => k))
  (at level 100, m at next level, right associativity) : run_scope.
Notation "m ;;; k" := (bind m (fun _ => k))
  (at level 100, right associativity) : run_scope.
Local Open Scope run_scope.

(** Everything outside the script that a run depends on.  [check_options] is
    the validation helper of [qiime.exclude_seqs_by_blast] ([Some msg] when it
    calls [option_parser.error(msg)]); [formatdb] is brokit's [FormatDb]
    application, returning the values of its result ([None] for a value that
    is not a file object); [blast] is the external search together with the
    parsing of its tabular output; [read_fasta] opens and parses a sequence
    file as it is when the run starts; [reread] is what opening and parsing,
    as a sequence file, a file the run has written with something else than
    sequence records gives; [format_options_as_lines] is the helper of that
    name; [makedirs] is [false] when [os.makedirs] raises [OSError]. *)
Record World : Type := MkWorld {
  getcwd : path;
  abspath : path -> path;
  check_options : Options -> option string;
  can_read : path -> bool;
  can_write : path -> bool;
  makedirs : path -> bool;
  formatdb_base_command : path -> path -> string;
  formatdb : path -> path -> result (list (option path));
  read_fasta : path -> result (list SequenceRecord);
  reread : content -> result (list SequenceRecord);
  format_options_as_lines : Options -> list string;
  blast : path -> path -> float -> Z -> path -> option path -> Z ->
          result (list string * list AlignmentRecord)
}.

(** [f = open(p, 'w'); f.writelines(c); f.close()]. *)
Definition write_file (w : World) (p : path) (c : content) : M unit :=
  if can_write w p then emit (EvWrite p c) else raise (IOError p).

(** What a sequence file holds when it is read: [written] lists the files the
    run has written so far, the most recent first.  A file the run has
    overwritten holds what the run wrote; sequence records written by the
    extractor read back as these records. *)
Definition read_query (w : World) (written : list (path * content)) (p : path)
    : result (list SequenceRecord) :=
  match find (fun pc => bool_decide (pc.1 = p)) written with
  | Some (_, FastaRecords records) => inr records
  | Some (_, c) => reread w c
  | None => read_fasta w p
  end.

(** Opening and parsing a sequence file. *)
Definition load_fasta (w : World) (written : list (path * content)) (p : path)
    : M (list SequenceRecord) :=
  emit (EvOpenRead p) ;;; lift (read_query w written p).

(** ** Hit filter *)

(** Length of the query sequence named [q], from the parsed query file. *)
Definition query_length (seqs : list SequenceRecord) (q : string) : option Z :=
  (fun r => Z.of_nat (String.length (seq_data r)))
    <$> find (fun r => bool_decide (seq_id r = q)) seqs.

(** The fraction of the query covered by the alignment. *)
Definition coverage (r : AlignmentRecord) (qlen : Z) : float :=
  int_truediv (alignment_length r) qlen.

(** Modelled from the spec: the acceptance rule of the hit filter inside
    [find_homologs] (module [qiime.exclude_seqs_by_blast], not part of the
    script): [expectation_value <= e_value_cutoff] and
    [alignment_length / query_length >= percent_aligned_cutoff]. *)
Definition record_accepted (e_cut p_cut : float) (qlen : Z) (r : AlignmentRecord) : bool :=
  float_le (expectation_value r) e_cut && float_ge (coverage r qlen) p_cut.

(** Modelled from the spec: one record of the hit filter.  The query length
    is looked up in the parsed query file; a record whose query is not there
    is a fatal inconsistency.  The state is the set of accepted queries and
    the set of queries seen. *)
Definition hit_step (e_cut p_cut : float) (seqs : list SequenceRecord)
    (st : gset string * gset string) (r : AlignmentRecord)
    : result (gset string * gset string) :=
  match query_length seqs (query_id r) with
  | None => inl (ConsistencyError (query_id r))
  | Some qlen =>
      inr (if record_accepted e_cut p_cut qlen r
           then {[query_id r]} ∪ st.1 else st.1,
           {[query_id r]} ∪ st.2)
  end.

Fixpoint hit_scan (e_cut p_cut : float) (seqs : list SequenceRecord)
    (recs : list AlignmentRecord) (st : gset string * gset string)
    : result (gset string * gset string) :=
  match recs with
  | [] => inr st
  | r :: rest =>
      match hit_step e_cut p_cut seqs st r with
      | inl err => inl err
      | inr st' => hit_scan e_cut p_cut seqs rest st'
      end
  end.

(** Modelled from the spec: the hit filter of [find_homologs].  It returns
    [accepted_ids], the queries with at least one accepted record, and
    [rejected_ids], the queries with records none of which is accepted. *)
Definition hit_filter (e_cut p_cut : float) (seqs : list SequenceRecord)
    (recs : list AlignmentRecord) : result (gset string * gset string) :=
  match hit_scan e_cut p_cut seqs recs (∅, ∅) with
  | inl err => inl err
  | inr (accepted, seen) => inr (accepted, seen ∖ accepted)
  end.

(** Modelled from the spec: [find_homologs] of [qiime.exclude_seqs_by_blast],
    which is not part of the script: read the query file, run the external
    search, filter its records.  Returns the raw output lines, the accepted
    and the rejected identifiers. *)
Definition find_homologs (w : World) (query_file subject_db : path)
    (e_cut : float) (hits : Z) (wd : path) (matroot : option path) (word : Z)
    (p_cut : float) : M (list string * gset string * gset string) :=
  seqs <- load_fasta w [] query_file ;;
  emit (EvBlast query_file subject_db e_cut hits wd matroot word) ;;;
  out <- lift (blast w query_file subject_db e_cut hits wd matroot word) ;;
  ids <- lift (hit_filter e_cut p_cut seqs out.2) ;;
  ret (out.1, ids.1, ids.2).

(** ** Reader and extractor *)

(** Modelled from the spec: [ids_from_fasta_lines] of
    [qiime.exclude_seqs_by_blast]: the identifiers of a sequence file, in
    file order. *)
Definition ids_from_fasta_lines (seqs : list SequenceRecord) : list string :=
  map seq_id seqs.

(** Modelled from the spec: the records kept by the sequence extractor: those
    whose identifier is in [ids], in the order of the file. *)
Definition seqs_from_file (ids : gset string) (seqs : list SequenceRecord)
    : list SequenceRecord :=
  filter (fun r => seq_id r ∈ ids) seqs.

(** Modelled from the spec: [ids_to_seq_file] of [qiime.exclude_seqs_by_blast]:
    re-scan [infile] and write the selected records to [outfile].  The
    records written are returned, for the caller to keep track of what the
    file now holds. *)
Definition ids_to_seq_file (w : World) (written : list (path * content))
    (ids : gset string) (infile outfile : path) : M (list SequenceRecord) :=
  seqs <- load_fasta w written infile ;;
  write_file w outfile (FastaRecords (seqs_from_file ids seqs)) ;;;
  ret (seqs_from_file ids seqs).

(** ** The script *)

(** The subject database path made absolute (lines 133-135). *)
Definition absolute_subject_db (w : World) (o : Options) : path :=
  if startswith (subjectdb o) "/" then subjectdb o
  else join (getcwd w) (subjectdb o).

Definition db_ext : list string := [".nhr"; ".nin"; ".nsd"; ".nsi"; ".nsq"].

(** The files a formatted nucleotide database consists of (line 178). *)
Definition index_files (subject_db : path) : list path :=
  map (fun ext => subject_db +:+ ext) db_ext.

Definition no_format_db_message (db_f : path) : string :=
  "Problem with -d and --no_format_db option combination: Cannot open the following user-supplied database file: "
  +:+ db_f +:+
  ". Consider running without --no_format_db to let formatdb generate these required files".

(** Lines 187-195: the files are opened for reading one after the other; at
    the first that cannot be opened, [db_f] (the variable of the list
    comprehension, still bound in Python 2) names it in the parser's error. *)
Fixpoint open_all (w : World) (fps : list path) : M unit :=
  match fps with
  | [] => ret tt
  | db_f :: rest =>
      emit (EvOpenRead db_f) ;;;
      if can_read w db_f then open_all w rest
      else raise (ConfigurationError (no_format_db_message db_f))
  end.

(** Lines 136-199: build the index with formatdb, or check the files of an
    index the caller declares to exist.  Returns [formatdb_cmd] and
    [formatdb_filepaths]. *)
Definition index_phase (w : World) (o : Options) (subject_db : path)
    : M (string * list path) :=
  if negb (no_format_db o) then
    let inpath := abspath w (subjectdb o) in
    let '(subject_dir, subj_file) := split inpath in
    emit (EvFormatDb subject_dir subject_db) ;;;
    app_result <- lift (formatdb w subject_dir subject_db) ;;
    ret (formatdb_base_command w subject_dir subject_db, omap id app_result)
  else
    let formatdb_filepaths := index_files subject_db in
    open_all w formatdb_filepaths ;;;
    ret ("None (formatdb not called)", formatdb_filepaths).

(** Lines 213-218: [try: makedirs(outputdir) except OSError: pass]. *)
Definition create_output_folder (w : World) (dir : path) : M unit :=
  emit (EvMakedirs dir) ;;;
  if makedirs w dir then ret tt else ret tt.

(** Line 233: [included_ids = set(all_ids) - hit_ids]. *)
Definition included_ids (all_ids : list string) (hit_ids : gset string) : gset string :=
  list_to_set all_ids ∖ hit_ids.

(** Lines 250-263. *)
Definition cleanup (o : Options) (formatdb_filepaths : list path) : M unit :=
  if negb (no_clean o) then
    if negb (no_format_db o) then emit (EvRemove formatdb_filepaths)
    else ret tt
  else ret tt.

(** Lines 220-248: the four output files. *)
Definition output_phase (w : World) (o : Options) (formatdb_cmd : string)
    (blast_results : list string) (hit_ids removed_hit_ids : gset string) : M unit :=
  let dir := outputdir o in
  create_output_folder w dir ;;;
  write_file w (join dir "raw_blast_results.txt") (RawLines blast_results) ;;;
  let written := [(join dir "raw_blast_results.txt", RawLines blast_results)] in
  matching <- ids_to_seq_file w written hit_ids (querydb o)
                (join dir "matching.fna") ;;
  let written := (join dir "matching.fna", FastaRecords matching) :: written in
  seqs <- load_fasta w written (querydb o) ;;
  let all_ids := ids_from_fasta_lines seqs in
  let included := included_ids all_ids hit_ids in
  ids_to_seq_file w written included (querydb o) (join dir "non-matching.fna") ;;;
  write_file w (join dir "sequence_exclusion.log")
    (LogLines (MkReport (format_options_as_lines w o) o formatdb_cmd
                 blast_results all_ids hit_ids removed_hit_ids included)).

Definition main (w : World) (o : Options) : M unit :=
  match check_options w o with
  | Some msg => raise (ConfigurationError msg)
  | None =>
      let subject_db := absolute_subject_db w o in
      idx <- index_phase w o subject_db ;;
      found <- find_homologs w (querydb o) subject_db (e_value o) (max_hits o)
                 (working_dir o) (blastmatroot o) (wordsize o)
                 (percent_aligned o) ;;
      let '(blast_results, hit_ids, removed_hit_ids) := found in
      output_phase w o idx.1 blast_results hit_ids removed_hit_ids ;;;
      cleanup o idx.2
  end.

(** ** A concrete world for examples *)

Module Example.

Definition query_records : list SequenceRecord :=
  [ MkSeq "Q1" "ACGTACGTAC"; MkSeq "Q2" "TTTTGGGGCC"; MkSeq "Q3" "ACACACACAC" ].

Definition mk_hit (q : string) (len : Z) (e : float) : AlignmentRecord :=
  MkAln q "human1" 100 len 0 0 e 50.

Definition world (can_open : path -> bool) (dirs_ok : bool)
    (recs : list AlignmentRecord) : World :=
  {| getcwd := "/home/user";
     abspath := fun p => if startswith p "/" then p else join "/home/user" p;
     check_options := fun _ => None;
     can_read := can_open;
     can_write := fun _ => true;
     makedirs := fun _ => dirs_ok;
     formatdb_base_command := fun d s => "cd " +:+ d +:+ "; formatdb -p F -o T -i " +:+ s;
     formatdb := fun d s => inr (None :: Some (join d "formatdb.log")
                                 :: map Some (index_files s));
     read_fasta := fun p => if bool_decide (p = "seqs.fna") then inr query_records
                            else inl (IOError p);
     reread := fun _ => inl (ParseError "not a sequence file");
     format_options_as_lines := fun o => ["querydb: " +:+ querydb o];
     blast := fun _ _ _ _ _ _ _ => inr (map query_id recs, recs) |}.

Definition options (skip_index keep : bool) : Options :=
  {| querydb := "seqs.fna"; subjectdb := "db/ref.fna"; outputdir := "out";
     e_value := 1e-10; percent_aligned := 0.97; no_clean := keep;
     blastmatroot := None; working_dir := "/tmp"; max_hits := 100;
     wordsize := 28; no_format_db := skip_index |}.

Definition all_readable : path -> bool := fun _ => true.



Definition nsd_missing : path -> bool :=
  fun p => negb (bool_decide (p = "/home/user/db/ref.fna.nsd")).

End Example.

(** ** Derived notions used in the statements *)

(** The first record naming a query that is not in the query file. *)
Definition first_unknown (seqs : list SequenceRecord) (recs : list AlignmentRecord)
    : option AlignmentRecord :=
  find (fun r => bool_decide (query_length seqs (query_id r) = None)) recs.

(** Events of a given kind. *)
Definition is_remove (ev : event) : bool :=
  match ev with EvRemove _ => true | _ => false end.

Definition is_write (ev : event) : bool :=
  match ev with EvWrite _ _ => true | _ => false end.

Definition is_search (ev : event) : bool :=
  match ev with EvBlast _ _ _ _ _ _ _ => true | _ => false end.

Definition none_of (k : event -> bool) (t : list event) : Prop :=
  forall ev, ev ∈ t -> k ev = false.

(** The files formatdb reports when it builds the index of a run. *)
Definition built_artifacts (w : World) (o : Options) : list path :=
  match formatdb w (split (abspath w (subjectdb o))).1 (absolute_subject_db w o) with
  | inr app_result => omap id app_result
  | inl _ => []
  end.

(** The files the run has written once raw_blast_results.txt is closed, and
    once matching.fna is. *)
Definition after_raw (o : Options) (raw : list string) : list (path * content) :=
  [(join (outputdir o) "raw_blast_results.txt", RawLines raw)].

Definition after_matching (o : Options) (raw : list string)
    (matching : list SequenceRecord) : list (path * content) :=
  (join (outputdir o) "matching.fna", FastaRecords matching) :: after_raw o raw.



(** The event with, in a log, the options and option lines replaced. *)
Definition with_report_options (lines : list string) (o : Options) (ev : event)
    : event :=
  match ev with
  | EvWrite p (LogLines r) =>
      EvWrite p (LogLines (MkReport lines o (rep_formatdb_cmd r)
                             (rep_blast_results r) (rep_all_ids r) (rep_hit_ids r)
                             (rep_removed_hit_ids r) (rep_included_ids r)))
  | _ => ev
  end.


(** The events of an output phase that gets through: [seqs1] are the records
    the extractor reads for matching.fna, [seqs2] those read afterwards. *)
Definition output_events (w : World) (o : Options) (cmd : string)
    (seqs1 seqs2 : list SequenceRecord) (raw : list string)
    (acc rej : gset string) : list event :=
  let dir := outputdir o in
  let all_ids := ids_from_fasta_lines seqs2 in
  [ EvMakedirs dir;
    EvWrite (join dir "raw_blast_results.txt") (RawLines raw);
    EvOpenRead (querydb o);
    EvWrite (join dir "matching.fna") (FastaRecords (seqs_from_file acc seqs1));
    EvOpenRead (querydb o);
    EvOpenRead (querydb o);
    EvWrite (join dir "non-matching.fna")
      (FastaRecords (seqs_from_file (included_ids all_ids acc) seqs2));
    EvWrite (join dir "sequence_exclusion.log")
      (LogLines (MkReport (format_options_as_lines w o) o cmd raw all_ids acc rej
                   (included_ids all_ids acc))) ].

(** The events between the index phase and the cleanup of a run that gets
    through all of them. *)
Definition pipeline_events (w : World) (o : Options) (subject_db : path)
    (cmd : string) (seqs1 seqs2 : list SequenceRecord) (raw : list string)
    (acc rej : gset string) : list event :=
  EvOpenRead (querydb o)
  :: EvBlast (querydb o) subject_db (e_value o) (max_hits o) (working_dir o)
       (blastmatroot o) (wordsize o)
  :: output_events w o cmd seqs1 seqs2 raw acc rej.


(** A world that differs from [w] in the outcome of [os.makedirs] only. *)
Definition with_makedirs (w : World) (f : path -> bool) : World :=
  {| getcwd := getcwd w; abspath := abspath w; check_options := check_options w;
     can_read := can_read w; can_write := can_write w; makedirs := f;
     formatdb_base_command := formatdb_base_command w; formatdb := formatdb w;
     read_fasta := read_fasta w; reread := reread w;
     format_options_as_lines := format_options_as_lines w; blast := blast w |}.

(** The flags of the six options with the defaults in question. *)
Definition tuning_flags : list string :=
  ["-e"; "--e_value"; "-p"; "--percent_aligned"; "--no_clean";
   "-m"; "--max_hits"; "-w"; "--word_size"; "-n"; "--no_format_db"].

Definition tuning_dests : list string :=
  ["e_value"; "percent_aligned"; "no_clean"; "max_hits"; "wordsize"; "no_format_db"].

Definition is_formatdb (ev : event) : bool :=
  match ev with EvFormatDb _ _ => true | _ => false end.

Definition is_makedirs (ev : event) : bool :=
  match ev with EvMakedirs _ => true | _ => false end.

(** What [main] does once the index phase has returned [idx]
    (lines 201-263). *)
Definition after_index (w : World) (o : Options) (idx : string * list path) : M unit :=
  found <- find_homologs w (querydb o) (absolute_subject_db w o) (e_value o)
             (max_hits o) (working_dir o) (blastmatroot o) (wordsize o)
             (percent_aligned o) ;;
  let '(blast_results, hit_ids, removed_hit_ids) := found in
  output_phase w o idx.1 blast_results hit_ids removed_hit_ids ;;;
  cleanup o idx.2.

(** The same options with another value of [--no_clean]. *)
Definition set_no_clean (o : Options) (b : bool) : Options :=
  {| querydb := querydb o; subjectdb := subjectdb o; outputdir := outputdir o;
     e_value := e_value o; percent_aligned := percent_aligned o; no_clean := b;
     blastmatroot := blastmatroot o; working_dir := working_dir o;
     max_hits := max_hits o; wordsize := wordsize o;
     no_format_db := no_format_db o |}.

(** The four files a run writes, in the order it writes them. *)
Definition output_paths (o : Options) : list path :=
  [ join (outputdir o) "raw_blast_results.txt";
    join (outputdir o) "matching.fna";
    join (outputdir o) "non-matching.fna";
    join (outputdir o) "sequence_exclusion.log" ].

(** The file written by a write event. *)
Definition written_path (ev : event) : option path :=
  match ev with EvWrite p _ => Some p | _ => None end.

(** A file name without a slash. *)
Definition slash_free (s : string) : Prop :=
  forall c, c ∈ list_ascii_of_string s -> c <> "/"%char.

(** * Properties *)

(** ** The order on floats *)

Lemma SFleb_trans (x y z : spec_float) :
  SFleb x y = true -> SFleb y z = true -> SFleb x z = true.
Proof.
  unfold SFleb.
  destruct x as [sx|sx| |sx mx ex], y as [sy|sy| |sy my ey], z as [sz|sz| |sz mz ez];
    simpl; try discriminate; try reflexivity;
    repeat match goal with s : bool |- _ => destruct s end;
    simpl; try discriminate; try reflexivity.
  all: destruct (Z.compare_spec ex ey), (Z.compare_spec ey ez), (Z.compare_spec ex ez);
    try discriminate; try reflexivity; try lia; subst.
  all: change (Pos.compare_cont Eq) with Pos.compare.
  all: destruct (Pos.compare_spec mx my), (Pos.compare_spec my mz), (Pos.compare_spec mx mz);
    simpl; try discriminate; try reflexivity; try lia.
Qed.

Lemma float_le_trans (x y z : float) :
  float_le x y = true -> float_le y z = true -> float_le x z = true.
Proof. unfold float_le. rewrite !leb_spec. apply SFleb_trans. Qed.

(** Tightening both cutoffs keeps fewer records.  A cutoff counts as
    unchanged when it is the same float, a NaN included. *)
Lemma record_accepted_mono (e1 p1 e2 p2 : float) (qlen : Z) (r : AlignmentRecord) :
  float_le e2 e1 = true \/ e2 = e1 ->
  float_le p1 p2 = true \/ p1 = p2 ->
  record_accepted e2 p2 qlen r = true -> record_accepted e1 p1 qlen r = true.
Proof.
  unfold record_accepted, float_ge. intros He Hp.
  rewrite !andb_true_iff. intros [Hev Hcov]. split.
  - destruct He as [He | ->]; [| exact Hev].
    exact (float_le_trans _ _ _ Hev He).
  - destruct Hp as [Hp | ->]; [| exact Hcov].
    exact (float_le_trans _ _ _ Hp Hcov).
Qed.

(** ** The query index *)

Lemma query_length_find (seqs : list SequenceRecord) (q : string) (n : Z) :
  query_length seqs q = Some n <->
  exists s, find (fun s => bool_decide (seq_id s = q)) seqs = Some s /\
            n = Z.of_nat (String.length (seq_data s)).
Proof.
  unfold query_length.
  destruct (find _ seqs) as [s|]; simpl; split.
  - intros [= <-]. eauto.
  - intros (s' & [= <-] & ->). reflexivity.
  - discriminate.
  - intros (s' & [=] & _).
Qed.

Lemma query_length_known (seqs : list SequenceRecord) (q : string) :
  is_Some (query_length seqs q) <-> q ∈ ids_from_fasta_lines seqs.
Proof.
  unfold query_length, ids_from_fasta_lines.
  induction seqs as [|s seqs IH]; simpl.
  - split; [intros [? [=]] | intros H; inversion H].
  - case_bool_decide as Hs; simpl.
    + split; [intros _; subst q; left | intros _; eauto].
    + rewrite IH. split; [intros H; by right |].
      intros H. inversion H; subst; [congruence | assumption].
Qed.

Lemma query_length_unknown (seqs : list SequenceRecord) (q : string) :
  query_length seqs q = None <-> q ∉ ids_from_fasta_lines seqs.
Proof.
  rewrite <- query_length_known, <- not_eq_None_Some. split.
  - intros H Hn. exact (Hn H).
  - intros H. destruct (query_length seqs q); [| reflexivity].
    exfalso. apply H. discriminate.
Qed.

(** ** The scan of the hit filter *)

Lemma first_unknown_None (seqs : list SequenceRecord) (recs : list AlignmentRecord) :
  first_unknown seqs recs = None <->
  forall r, r ∈ recs -> query_id r ∈ ids_from_fasta_lines seqs.
Proof.
  unfold first_unknown. induction recs as [|r recs IH]; simpl.
  - split; [intros _ r H; inversion H | reflexivity].
  - case_bool_decide as Hq.
    + split; [discriminate |]. intros H. exfalso.
      apply query_length_unknown in Hq. apply Hq, H. left.
    + rewrite IH. split.
      * intros H r' Hr'. inversion Hr'; subst; [| by apply H].
        apply query_length_known. destruct (query_length seqs (query_id r)); [eauto | done].
      * intros H r' Hr'. apply H. by right.
Qed.


(** Whether the scan fails, and on which record, does not depend on the
    cutoffs. *)
Lemma hit_scan_outcome (e p : float) (seqs : list SequenceRecord)
    (recs : list AlignmentRecord) (st : gset string * gset string) :
  match first_unknown seqs recs with
  | Some r => hit_scan e p seqs recs st = inl (ConsistencyError (query_id r))
  | None => exists st', hit_scan e p seqs recs st = inr st'
  end.
Proof.
  unfold first_unknown. revert st.
  induction recs as [|r recs IH]; intros st; simpl; [eauto |].
  unfold hit_step. case_bool_decide as Hq.
  - by rewrite Hq.
  - destruct (query_length seqs (query_id r)) as [n|]; [| done]. apply IH.
Qed.

(** What a successful scan has collected. *)
Lemma hit_scan_spec (e p : float) (seqs : list SequenceRecord)
    (recs : list AlignmentRecord) (st st' : gset string * gset string) :
  hit_scan e p seqs recs st = inr st' ->
  (forall q, q ∈ st'.1 <->
     q ∈ st.1 \/
     exists r qlen, r ∈ recs /\ query_id r = q /\ query_length seqs q = Some qlen /\
                    record_accepted e p qlen r = true) /\
  (forall q, q ∈ st'.2 <-> q ∈ st.2 \/ exists r, r ∈ recs /\ query_id r = q).
Proof.
  revert st. induction recs as [|r recs IH]; intros st; simpl.
  - intros [= <-]. split; intros q; split; eauto.
    + intros [H | (r & n & H & _)]; [done | inversion H].
    + intros [H | (r & H & _)]; [done | inversion H].
  - unfold hit_step. destruct (query_length seqs (query_id r)) as [n|] eqn:Hn; [| discriminate].
    intros H. apply IH in H as [H1 H2]. simpl in *. split; intros q.
    + rewrite H1. split.
      * intros [Hq | (r' & n' & Hin & Hid & Hlen & Hacc)].
        -- destruct (record_accepted e p n r) eqn:Hacc; [| by left].
           apply elem_of_union in Hq as [Hq | Hq]; [| by left].
           apply elem_of_singleton in Hq. subst q. right. exists r, n.
           split; [left | done].
        -- right. exists r', n'. split; [by right | done].
      * intros [Hq | (r' & n' & Hin & Hid & Hlen & Hacc)].
        -- left. destruct (record_accepted e p n r); set_solver.
        -- inversion Hin; subst.
           ++ left. rewrite Hn in Hlen. injection Hlen as ->. rewrite Hacc. set_solver.
           ++ right. exists r', n'. done.
    + rewrite H2. split.
      * intros [Hq | (r' & Hin & Hid)].
        -- apply elem_of_union in Hq as [Hq | Hq]; [| by left].
           apply elem_of_singleton in Hq. right. exists r. split; [left | done].
        -- right. exists r'. split; [by right | done].
      * intros [Hq | (r' & Hin & Hid)]; [left; set_solver |].
        inversion Hin; subst; [left; set_solver | right; eauto].
Qed.

(** The outcome of the hit filter: the error of the first record of an
    unknown query, or the accepted and rejected sets. *)
Lemma hit_filter_outcome (e p : float) (seqs : list SequenceRecord)
    (recs : list AlignmentRecord) :
  match first_unknown seqs recs with
  | Some r => hit_filter e p seqs recs = inl (ConsistencyError (query_id r))
  | None =>
      exists accepted rejected,
        hit_filter e p seqs recs = inr (accepted, rejected) /\
        (forall q, q ∈ accepted <->
           exists r qlen, r ∈ recs /\ query_id r = q /\
                          query_length seqs q = Some qlen /\
                          record_accepted e p qlen r = true) /\
        (forall q, q ∈ rejected <->
           (exists r, r ∈ recs /\ query_id r = q) /\ q ∉ accepted)
  end.
Proof.
  unfold hit_filter.
  pose proof (hit_scan_outcome e p seqs recs (∅, ∅)) as H.
  destruct (first_unknown seqs recs) as [r|].
  - by rewrite H.
  - destruct H as [[acc seen] H]. rewrite H. exists acc, (seen ∖ acc).
    apply hit_scan_spec in H as [H1 H2]. simpl in *.
    split; [done |]. split; intros q.
    + rewrite H1. set_solver.
    + rewrite elem_of_difference, H2. set_solver.
Qed.


(** ** Traces and results of composed computations *)

Lemma bind_trace {A B} (m : M A) (f : A -> M B) :
  (bind m f).1 = (m.1 ++ match m.2 with inr a => (f a).1 | inl _ => [] end)%list.
Proof.
  destruct m as [t [e | a]]; simpl.
  - by rewrite app_nil_r.
  - by destruct (f a).
Qed.

Lemma bind_result {A B} (m : M A) (f : A -> M B) :
  (bind m f).2 = match m.2 with inr a => (f a).2 | inl e => inl e end.
Proof. destruct m as [t [e | a]]; simpl; [done |]. by destruct (f a). Qed.

Lemma none_of_nil k : none_of k [].
Proof. intros ev H. inversion H. Qed.

Lemma none_of_cons k ev t : k ev = false -> none_of k t -> none_of k (ev :: t).
Proof. intros H1 H2 ev' H. inversion H; subst; [done | by apply H2]. Qed.

Lemma none_of_app k t1 t2 : none_of k t1 -> none_of k t2 -> none_of k (t1 ++ t2).
Proof. intros H1 H2 ev H. apply elem_of_app in H as [H | H]; [by apply H1 | by apply H2]. Qed.

Lemma none_of_bind {A B} k (m : M A) (f : A -> M B) :
  none_of k m.1 -> (forall a, m.2 = inr a -> none_of k (f a).1) ->
  none_of k (bind m f).1.
Proof.
  intros H1 H2. rewrite bind_trace. apply none_of_app; [done |].
  destruct m.2 as [e | a]; [apply none_of_nil | by apply H2].
Qed.

Create HintDb trace.
#[local] Hint Resolve none_of_nil none_of_cons none_of_app : trace.

(** ** The phases of the script *)

Arguments join : simpl never.
Arguments index_files : simpl never.

Lemma write_file_trace w p c :
  write_file w p c = if can_write w p then ([EvWrite p c], inr tt) else ([], inl (IOError p)).
Proof. unfold write_file. by destruct (can_write w p). Qed.

Lemma load_fasta_eq w written p :
  load_fasta w written p = ([EvOpenRead p], read_query w written p).
Proof. unfold load_fasta, emit, lift. simpl. reflexivity. Qed.

Lemma read_query_nil w p : read_query w [] p = read_fasta w p.
Proof. reflexivity. Qed.


(** The index check opens the files in order up to the first unreadable
    one. *)
Lemma open_all_spec (w : World) (fps : list path) :
  match find (fun f => negb (can_read w f)) fps with
  | Some db_f =>
      (open_all w fps).2 = inl (ConfigurationError (no_format_db_message db_f)) /\
      exists before after,
        fps = (before ++ db_f :: after)%list /\
        (open_all w fps).1 = map EvOpenRead (before ++ [db_f])
  | None => open_all w fps = (map EvOpenRead fps, inr tt)
  end.
Proof.
  induction fps as [|f fps IH]; simpl; [done |].
  destruct (can_read w f) eqn:Hf; simpl.
  - destruct (find _ fps) as [db_f|].
    + destruct IH as (Hr & before & after & -> & Ht). split.
      * by destruct (open_all w _) as [t r]; simpl in *; subst r.
      * exists (f :: before), after. split; [done |].
        destruct (open_all w _) as [t r]; simpl in *. by subst t.
    + by rewrite IH.
  - split; [done |]. exists [], fps. done.
Qed.

Lemma index_phase_no (k : event -> bool) (w : World) (o : Options) (subject_db : path) :
  (forall p, k (EvOpenRead p) = false) ->
  (forall d s, k (EvFormatDb d s) = false) ->
  none_of k (index_phase w o subject_db).1.
Proof.
  intros Ho Hf. unfold index_phase.
  destruct (no_format_db o); cbn [negb].
  - apply none_of_bind; [| intros; apply none_of_nil].
    pose proof (open_all_spec w (index_files subject_db)) as H.
    destruct (find _ _) as [db_f|].
    + destruct H as (_ & b & a & _ & ->).
      intros ev Hev. apply list_elem_of_fmap in Hev as (p & -> & _). apply Ho.
    + rewrite H. intros ev Hev. apply list_elem_of_fmap in Hev as (p & -> & _). apply Ho.
  - destruct (split _) as [d f]. destruct (formatdb w d subject_db) as [e | r]; simpl;
      apply none_of_cons; auto with trace.
Qed.

Lemma find_homologs_no (k : event -> bool) w q s e h wd mr ws p :
  (forall x, k (EvOpenRead x) = false) ->
  k (EvBlast q s e h wd mr ws) = false ->
  none_of k (find_homologs w q s e h wd mr ws p).1.
Proof.
  intros Ho Hb. unfold find_homologs. rewrite load_fasta_eq, read_query_nil.
  destruct (read_fasta w q) as [err | seqs]; simpl; [auto with trace |].
  destruct (blast w q s e h wd mr ws) as [err | out]; simpl; [auto with trace |].
  destruct (hit_filter e p seqs out.2) as [err | ids]; simpl; auto with trace.
Qed.

Lemma write_file_no (k : event -> bool) w p c :
  k (EvWrite p c) = false -> none_of k (write_file w p c).1.
Proof. intros H. rewrite write_file_trace. destruct (can_write w p); simpl; auto with trace. Qed.

Lemma load_fasta_no (k : event -> bool) w written p :
  k (EvOpenRead p) = false -> none_of k (load_fasta w written p).1.
Proof. intros H. rewrite load_fasta_eq. simpl. auto with trace. Qed.

Lemma ids_to_seq_file_no (k : event -> bool) w written ids infile outfile :
  k (EvOpenRead infile) = false -> (forall c, k (EvWrite outfile c) = false) ->
  none_of k (ids_to_seq_file w written ids infile outfile).1.
Proof.
  intros Ho Hw. unfold ids_to_seq_file. apply none_of_bind.
  - by apply load_fasta_no.
  - intros seqs _. apply none_of_bind; [by apply write_file_no |].
    intros _ _. apply none_of_nil.
Qed.

Lemma create_output_folder_eq w dir :
  create_output_folder w dir = ([EvMakedirs dir], inr tt).
Proof. unfold create_output_folder. simpl. by destruct (makedirs w dir). Qed.

Lemma output_phase_no (k : event -> bool) w o cmd raw hit removed :
  (forall p, k (EvOpenRead p) = false) ->
  (forall p, k (EvMakedirs p) = false) ->
  (forall p c, k (EvWrite p c) = false) ->
  none_of k (output_phase w o cmd raw hit removed).1.
Proof.
  intros Ho Hm Hw. unfold output_phase.
  apply none_of_bind; [rewrite create_output_folder_eq; simpl; auto with trace | intros _ _].
  apply none_of_bind; [by apply write_file_no | intros _ _].
  apply none_of_bind; [by apply ids_to_seq_file_no | intros matching _].
  apply none_of_bind; [by apply load_fasta_no | intros seqs _].
  apply none_of_bind; [by apply ids_to_seq_file_no | intros _ _].
  by apply write_file_no.
Qed.

Lemma index_phase_build (w : World) (o : Options) t idx :
  no_format_db o = false ->
  index_phase w o (absolute_subject_db w o) = (t, inr idx) ->
  idx.2 = built_artifacts w o.
Proof.
  intros Hn. unfold index_phase, built_artifacts. rewrite Hn. cbn [negb].
  destruct (split _) as [d f]. cbn [fst].
  destruct (formatdb w d _) as [e | r]; simpl; [discriminate |].
  by intros [= _ <-].
Qed.

Lemma cleanup_eq (o : Options) (fps : list path) :
  cleanup o fps =
  (if negb (no_clean o) && negb (no_format_db o) then [EvRemove fps] else [], inr tt).
Proof. unfold cleanup. by destruct (no_clean o), (no_format_db o). Qed.

(** A run that completes went through every phase. *)
Lemma output_phase_inv (w : World) (o : Options) (cmd : string)
    (raw : list string) (hit removed : gset string) :
  (output_phase w o cmd raw hit removed).2 = inr tt ->
  exists seqs1 seqs2,
    read_query w (after_raw o raw) (querydb o) = inr seqs1 /\
    read_query w (after_matching o raw (seqs_from_file hit seqs1)) (querydb o)
      = inr seqs2 /\
    (output_phase w o cmd raw hit removed).1
      = output_events w o cmd seqs1 seqs2 raw hit removed.
Proof.
  unfold output_phase, ids_to_seq_file, load_fasta, write_file, output_events,
    after_matching, after_raw.
  rewrite create_output_folder_eq.
  destruct (can_write w (join _ "raw_blast_results.txt")); [| discriminate].
  cbn [bind lift emit ret raise fst snd app].
  destruct (read_query w [_] (querydb o)) as [e | seqs1] eqn:H1; [discriminate |].
  cbn [bind lift emit ret raise fst snd app].
  destruct (can_write w (join _ "matching.fna")); [| discriminate].
  cbn [bind lift emit ret raise fst snd app].
  destruct (read_query w [_; _] (querydb o)) as [e | seqs2] eqn:H2; [discriminate |].
  cbn [bind lift emit ret raise fst snd app].
  destruct (can_write w (join _ "non-matching.fna")); [| discriminate].
  cbn [bind lift emit ret raise fst snd app].
  destruct (can_write w (join _ "sequence_exclusion.log")); [| discriminate].
  cbn [bind lift emit ret raise fst snd app].
  intros _. by exists seqs1, seqs2.
Qed.


Lemma main_success (w : World) (o : Options) :
  (main w o).2 = inr tt ->
  exists t_idx cmd arts seqs raw recs acc rej,
    check_options w o = None /\
    index_phase w o (absolute_subject_db w o) = (t_idx, inr (cmd, arts)) /\
    read_fasta w (querydb o) = inr seqs /\
    blast w (querydb o) (absolute_subject_db w o) (e_value o) (max_hits o)
      (working_dir o) (blastmatroot o) (wordsize o) = inr (raw, recs) /\
    hit_filter (e_value o) (percent_aligned o) seqs recs = inr (acc, rej) /\
    exists seqs1 seqs2,
      read_query w (after_raw o raw) (querydb o) = inr seqs1 /\
      read_query w (after_matching o raw (seqs_from_file acc seqs1)) (querydb o)
        = inr seqs2 /\
      (main w o).1 =
        (t_idx ++ pipeline_events w o (absolute_subject_db w o) cmd seqs1 seqs2
                    raw acc rej
           ++ (cleanup o arts).1)%list.
Proof.
  unfold main. destruct (check_options w o) as [msg|]; [discriminate |].
  destruct (index_phase w o _) as [t_idx [e | [cmd arts]]]; [discriminate |].
  unfold find_homologs, load_fasta, pipeline_events. rewrite read_query_nil.
  destruct (read_fasta w (querydb o)) as [e | seqs] eqn:Hseqs; [discriminate |].
  destruct (blast w _ _ _ _ _ _ _) as [e | [raw recs]] eqn:Hblast; [discriminate |].
  cbn [bind lift emit ret raise fst snd app].
  destruct (hit_filter _ _ seqs recs) as [e | [acc rej]] eqn:Hfilter; [discriminate |].
  cbn [bind lift emit ret raise fst snd app].
  pose proof (output_phase_inv w o cmd raw acc rej) as Hout.
  destruct (output_phase w o cmd raw acc rej) as [t_out [e | []]]; [discriminate |].
  destruct (Hout eq_refl) as (seqs1 & seqs2 & H1 & H2 & Ht). cbn [fst] in Ht. subst t_out.
  rewrite cleanup_eq. cbn [fst snd].
  intros _. exists t_idx, cmd, arts, seqs, raw, recs, acc, rej.
  repeat split; try assumption. exists seqs1, seqs2.
  repeat split; try assumption. by rewrite cleanup_eq.
Qed.

(** Files are removed only by the cleanup at the end of a completed run. *)
Lemma main_remove_inv (w : World) (o : Options) (ps : list path) :
  EvRemove ps ∈ (main w o).1 ->
  (main w o).2 = inr tt /\ no_clean o = false /\ no_format_db o = false /\
  exists t idx, index_phase w o (absolute_subject_db w o) = (t, inr idx) /\ ps = idx.2.
Proof.
  unfold main. destruct (check_options w o) as [msg|]; [intros H; inversion H |].
  rewrite !bind_trace, !bind_result.
  pose proof (index_phase_no is_remove w o (absolute_subject_db w o)
                (fun _ => eq_refl) (fun _ _ => eq_refl)) as Hidx.
  destruct (index_phase w o _) as [t_idx [e | idx]]; cbn [fst snd] in *.
  - intros H. apply elem_of_app in H as [H | H]; [by apply Hidx in H | inversion H].
  - rewrite !bind_trace, !bind_result.
    pose proof (find_homologs_no is_remove w (querydb o) (absolute_subject_db w o)
                  (e_value o) (max_hits o) (working_dir o) (blastmatroot o)
                  (wordsize o) (percent_aligned o) (fun _ => eq_refl) eq_refl) as Hfind.
    destruct (find_homologs w _ _ _ _ _ _ _ _) as [t_f [e | [[raw hit] removed]]];
      cbn [fst snd] in *.
    + intros H. apply elem_of_app in H as [H | H]; [by apply Hidx in H |].
      apply elem_of_app in H as [H | H]; [by apply Hfind in H | inversion H].
    + rewrite !bind_trace, !bind_result.
      pose proof (output_phase_no is_remove w o idx.1 raw hit removed
                    (fun _ => eq_refl) (fun _ => eq_refl) (fun _ _ => eq_refl)) as Hout.
      destruct (output_phase w o _ _ _ _) as [t_o [e | []]]; cbn [fst snd] in *.
      * intros H. apply elem_of_app in H as [H | H]; [by apply Hidx in H |].
        apply elem_of_app in H as [H | H]; [by apply Hfind in H |].
        apply elem_of_app in H as [H | H]; [by apply Hout in H | inversion H].
      * rewrite cleanup_eq. cbn [fst snd].
        intros H. apply elem_of_app in H as [H | H]; [by apply Hidx in H |].
        apply elem_of_app in H as [H | H]; [by apply Hfind in H |].
        apply elem_of_app in H as [H | H]; [by apply Hout in H |].
        destruct (no_clean o), (no_format_db o); cbn [negb andb] in H;
          try (by inversion H).
        apply list_elem_of_singleton in H. injection H as ->.
        repeat split; eauto.
Qed.

(** ** Extraction *)






Lemma pipeline_events_in (w : World) (o : Options) t_idx cmd seqs1 seqs2 raw acc rej
    t_end ev :
  ev ∈ pipeline_events w o (absolute_subject_db w o) cmd seqs1 seqs2 raw acc rej ->
  ev ∈ (t_idx ++ pipeline_events w o (absolute_subject_db w o) cmd seqs1 seqs2 raw
                   acc rej ++ t_end)%list.
Proof. intros H. apply elem_of_app. right. apply elem_of_app. by left. Qed.


(** * The claims *)







(** C3. Hit acceptance rule: when every record names a query of the query
    file, the hit filter returns, and a query is accepted exactly when one of
    its records has an expectation value at most the e-value cutoff and an
    alignment length which, divided by the length of that query's sequence in
    the parsed query file, is at least the percent-aligned cutoff. *)
Theorem hit_acceptance_rule (e_cut p_cut : float) (seqs : list SequenceRecord)
    (recs : list AlignmentRecord) :
  (forall r, r ∈ recs -> query_id r ∈ ids_from_fasta_lines seqs) ->
  exists accepted rejected,
    hit_filter e_cut p_cut seqs recs = inr (accepted, rejected) /\
    forall q, q ∈ accepted <->
      exists r s,
        r ∈ recs /\ query_id r = q /\
        find (fun s => bool_decide (seq_id s = q)) seqs = Some s /\
        (expectation_value r <=? e_cut)%float = true /\
        (p_cut <=? float_of_int (alignment_length r)
                   / float_of_int (Z.of_nat (String.length (seq_data s))))%float = true.
Proof.
  intros Hknown. apply first_unknown_None in Hknown.
  pose proof (hit_filter_outcome e_cut p_cut seqs recs) as H.
  rewrite Hknown in H. destruct H as (acc & rej & Heq & Hacc & _).
  exists acc, rej. split; [exact Heq |]. intros q. rewrite Hacc. split.
  - intros (r & n & Hr & Hq & Hn & Ha).
    apply query_length_find in Hn as (s & Hs & ->).
    unfold record_accepted, float_le, float_ge, coverage, int_truediv in Ha.
    apply andb_true_iff in Ha as [He Hp]. exists r, s. done.
  - intros (r & s & Hr & Hq & Hs & He & Hp).
    exists r, (Z.of_nat (String.length (seq_data s))).
    split; [done |]. split; [done |]. split.
    + apply query_length_find. eauto.
    + unfold record_accepted, float_le, float_ge, coverage, int_truediv.
      by rewrite He, Hp.
Qed.

Lemma hit_acceptance_rule_witness :
  let seqs := Example.query_records in
  let recs := [Example.mk_hit "Q1" 10 1e-5; Example.mk_hit "Q1" 10 1e-50] in
  exists accepted rejected,
    hit_filter 1e-10 0.97 seqs recs = inr (accepted, rejected) /\
    forall q, q ∈ accepted <->
      exists r s,
        r ∈ recs /\ query_id r = q /\
        find (fun s => bool_decide (seq_id s = q)) seqs = Some s /\
        (expectation_value r <=? 1e-10)%float = true /\
        (0.97 <=? float_of_int (alignment_length r)
                  / float_of_int (Z.of_nat (String.length (seq_data s))))%float = true.
Proof.
  intros seqs recs. apply (hit_acceptance_rule 1e-10 0.97 seqs recs).
  intros r Hr. subst seqs recs.
  apply list_elem_of_In in Hr. simpl in Hr.
  destruct Hr as [<- | [<- | []]]; vm_compute; left.
Defined.

(** C4. Threshold monotonicity: with the alignment records and the query
    file fixed, a run of the hit filter and reconciler with an e-value cutoff
    no larger and a percent-aligned cutoff no smaller fails exactly when the
    first run fails, and otherwise accepts a subset of what the first run
    accepts and retains a superset of what the first run retains. *)
Theorem threshold_monotonicity (e1 p1 e2 p2 : float) (seqs : list SequenceRecord)
    (recs : list AlignmentRecord) :
  float_le e2 e1 = true \/ e2 = e1 ->
  float_le p1 p2 = true \/ p1 = p2 ->
  match hit_filter e1 p1 seqs recs, hit_filter e2 p2 seqs recs with
  | inr (accepted1, _), inr (accepted2, _) =>
      accepted2 ⊆ accepted1 /\
      included_ids (ids_from_fasta_lines seqs) accepted1
        ⊆ included_ids (ids_from_fasta_lines seqs) accepted2
  | inl err1, inl err2 => err1 = err2
  | _, _ => False
  end.
Proof.
  intros He Hp.
  pose proof (hit_filter_outcome e1 p1 seqs recs) as H1.
  pose proof (hit_filter_outcome e2 p2 seqs recs) as H2.
  destruct (first_unknown seqs recs) as [r|].
  - by rewrite H1, H2.
  - destruct H1 as (a1 & r1 & -> & Ha1 & _), H2 as (a2 & r2 & -> & Ha2 & _).
    assert (a2 ⊆ a1) as Hsub.
    { intros q Hq. apply Ha2 in Hq as (r & n & Hr & Hid & Hn & Hacc).
      apply Ha1. exists r, n. repeat split; try done.
      exact (record_accepted_mono e1 p1 e2 p2 n r He Hp Hacc). }
    split; [exact Hsub |]. unfold included_ids. set_solver.
Qed.

Lemma threshold_monotonicity_witness :
  match hit_filter 1e-10 0.5 Example.query_records
          [Example.mk_hit "Q1" 10 1e-50; Example.mk_hit "Q2" 6 1e-20],
        hit_filter 1e-30 0.97 Example.query_records
          [Example.mk_hit "Q1" 10 1e-50; Example.mk_hit "Q2" 6 1e-20] with
  | inr (accepted1, _), inr (accepted2, _) =>
      accepted2 ⊆ accepted1 /\
      included_ids (ids_from_fasta_lines Example.query_records) accepted1
        ⊆ included_ids (ids_from_fasta_lines Example.query_records) accepted2
  | inl err1, inl err2 => err1 = err2
  | _, _ => False
  end.
Proof.
  apply (threshold_monotonicity 1e-10 0.5 1e-30 0.97); left; vm_compute; reflexivity.
Defined.




(** C6. Skip-indexing precondition: when the index build is skipped and the
    options pass their validation, the five files subject_db + .nhr, .nin,
    .nsd, .nsi, .nsq are opened for reading, in this order, before anything
    else happens.  If one of them cannot be opened the run ends at the first
    such file with the parser's error, whose message names that file; the
    trace then holds nothing but the opening of the files up to it, so the
    search is not run.  If all can be opened, the five openings are the
    first events of the run. *)
Theorem skip_index_precondition (w : World) (o : Options) :
  no_format_db o = true ->
  check_options w o = None ->
  let subject_db := absolute_subject_db w o in
  let files := index_files subject_db in
  files = [subject_db +:+ ".nhr"; subject_db +:+ ".nin"; subject_db +:+ ".nsd";
           subject_db +:+ ".nsi"; subject_db +:+ ".nsq"] /\
  match find (fun f => negb (can_read w f)) files with
  | Some db_f =>
      can_read w db_f = false /\
      (main w o).2 = inl (ConfigurationError (no_format_db_message db_f)) /\
      (exists pre post, no_format_db_message db_f = pre +:+ db_f +:+ post) /\
      none_of is_search (main w o).1 /\
      exists before after,
        files = (before ++ db_f :: after)%list /\
        (main w o).1 = map EvOpenRead (before ++ [db_f])
  | None =>
      exists rest,
        (main w o).1 = (map EvOpenRead files ++ rest)%list /\
        forall p, EvOpenRead p ∈ rest -> p = querydb o
  end.
Proof.
  intros Hskip Hopt subject_db files. split; [reflexivity |].
  pose proof (open_all_spec w files) as Hopen.
  assert (Hmain : main w o =
    bind (bind (open_all w files)
            (fun _ => ret ("None (formatdb not called)", files)))
      (fun idx =>
         bind (find_homologs w (querydb o) subject_db (e_value o) (max_hits o)
                 (working_dir o) (blastmatroot o) (wordsize o) (percent_aligned o))
           (fun found =>
              let '(blast_results, hit_ids, removed_hit_ids) := found in
              bind (output_phase w o idx.1 blast_results hit_ids removed_hit_ids)
                (fun _ => cleanup o idx.2)))).
  { unfold main, index_phase. rewrite Hopt, Hskip. reflexivity. }
  destruct (find _ files) as [db_f|] eqn:Hfind.
  - destruct Hopen as (Hres & before & after & Hfiles & Htrace).
    apply find_some in Hfind as [_ Hread]. apply negb_true_iff in Hread.
    assert (main w o = (map EvOpenRead (before ++ [db_f]),
                        inl (ConfigurationError (no_format_db_message db_f)))) as ->.
    { rewrite Hmain. destruct (open_all w files) as [t r]. simpl in *. by subst. }
    cbn [fst snd]. split; [exact Hread |]. split; [reflexivity |]. split.
    { by eexists _, _. }
    split; [| by exists before, after].
    intros ev Hev. apply list_elem_of_fmap in Hev as (p & -> & _). reflexivity.
  - rewrite Hmain, Hopen. cbn [bind ret fst snd]. rewrite app_nil_r.
    match goal with |- context [bind ?m ?f] => destruct (bind m f) as [rest r] eqn:Hrest end.
    exists rest. cbn [fst]. split; [reflexivity |].
    intros p Hp. assert (rest = (bind
      (find_homologs w (querydb o) subject_db (e_value o) (max_hits o)
         (working_dir o) (blastmatroot o) (wordsize o) (percent_aligned o))
      (fun found => let '(blast_results, hit_ids, removed_hit_ids) := found in
         bind (output_phase w o "None (formatdb not called)" blast_results hit_ids
                 removed_hit_ids) (fun _ => cleanup o files))).1) as ->.
    { cbn [fst snd] in Hrest. by rewrite Hrest. }
    clear Hrest. unfold find_homologs, output_phase, ids_to_seq_file, load_fasta,
      write_file in Hp. rewrite create_output_folder_eq in Hp.
    revert Hp. rewrite !bind_trace. cbn [emit fst snd lift].
    repeat first
      [ progress cbn [emit ret raise lift fst snd app bind]
      | rewrite bind_trace
      | rewrite cleanup_eq
      | match goal with
        | |- context [match ?x with inl _ => _ | inr _ => _ end] => destruct x
        | |- context [if ?b then _ else _] => destruct b
        | |- context [let '(_, _) := ?x in _] => destruct x
        end ];
    rewrite ?app_nil_r; intros Hp;
    repeat match goal with
    | H : _ ∈ (_ ++ _)%list |- _ => apply elem_of_app in H as [H | H]
    | H : _ ∈ _ :: _ |- _ => apply elem_of_cons in H as [H | H]
    | H : _ ∈ [] |- _ => inversion H
    | H : EvOpenRead _ = _ |- _ => by inversion H
    end.
Qed.

Lemma skip_index_precondition_witness :
  let w := Example.world Example.nsd_missing true [Example.mk_hit "Q1" 10 1e-50] in
  let o := Example.options true false in
  let subject_db := absolute_subject_db w o in
  let files := index_files subject_db in
  files = [subject_db +:+ ".nhr"; subject_db +:+ ".nin"; subject_db +:+ ".nsd";
           subject_db +:+ ".nsi"; subject_db +:+ ".nsq"] /\
  match find (fun f => negb (can_read w f)) files with
  | Some db_f =>
      can_read w db_f = false /\
      (main w o).2 = inl (ConfigurationError (no_format_db_message db_f)) /\
      (exists pre post, no_format_db_message db_f = pre +:+ db_f +:+ post) /\
      none_of is_search (main w o).1 /\
      exists before after,
        files = (before ++ db_f :: after)%list /\
        (main w o).1 = map EvOpenRead (before ++ [db_f])
  | None =>
      exists rest,
        (main w o).1 = (map EvOpenRead files ++ rest)%list /\
        forall p, EvOpenRead p ∈ rest -> p = querydb o
  end.
Proof.
  intros w o. apply (skip_index_precondition w o); reflexivity.
Defined.

(** C7. Cleanup condition: in a run that builds the index, files are removed
    exactly when the run completes and [no_clean] is unset, and the files
    removed are then the ones formatdb reported; a run that aborts, or one
    with [no_clean] set, removes nothing. *)
Theorem cleanup_condition (w : World) (o : Options) (ps : list path) :
  no_format_db o = false ->
  EvRemove ps ∈ (main w o).1 <->
  ps = built_artifacts w o /\ (main w o).2 = inr tt /\ no_clean o = false.
Proof.
  intros Hbuild. split.
  - intros H. apply main_remove_inv in H as (Hok & Hclean & _ & t & idx & Hidx & ->).
    split; [| done]. by eapply index_phase_build.
  - intros (-> & Hok & Hclean).
    destruct (main_success w o Hok)
      as (t_idx & cmd & arts & seqs & raw & recs & acc & rej & _ & Hidx & _ & _ & _
          & seqs1 & seqs2 & _ & _ & Ht).
    rewrite Ht, cleanup_eq, Hclean, Hbuild. cbn [negb andb fst].
    apply (index_phase_build w o _ _ Hbuild) in Hidx. cbn [snd] in Hidx. subst arts.
    rewrite !elem_of_app. right. right. left.
Qed.

Lemma cleanup_condition_witness :
  let w := Example.world Example.all_readable true [Example.mk_hit "Q1" 10 1e-50] in
  let o := Example.options false false in
  EvRemove ["/home/user/db/formatdb.log"; "/home/user/db/ref.fna.nhr";
            "/home/user/db/ref.fna.nin"; "/home/user/db/ref.fna.nsd";
            "/home/user/db/ref.fna.nsi"; "/home/user/db/ref.fna.nsq"] ∈ (main w o).1 <->
  ["/home/user/db/formatdb.log"; "/home/user/db/ref.fna.nhr";
   "/home/user/db/ref.fna.nin"; "/home/user/db/ref.fna.nsd";
   "/home/user/db/ref.fna.nsi"; "/home/user/db/ref.fna.nsq"] = built_artifacts w o /\
  (main w o).2 = inr tt /\ no_clean o = false.
Proof.
  intros w o. apply (cleanup_condition w o). reflexivity.
Defined.

Lemma open_all_with_makedirs (w : World) (f : path -> bool) (fps : list path) :
  open_all (with_makedirs w f) fps = open_all w fps.
Proof. induction fps as [|p fps IH]; simpl; [done |]. by rewrite IH. Qed.

Lemma main_with_makedirs (w : World) (o : Options) (f : path -> bool) :
  main (with_makedirs w f) o = main w o.
Proof.
  unfold main, index_phase, output_phase, find_homologs, ids_to_seq_file,
    load_fasta, write_file, absolute_subject_db.
  rewrite open_all_with_makedirs, !create_output_folder_eq. reflexivity.
Qed.

(** C9. A failure of makedirs is ignored: when creating the output directory
    raises [OSError], the run is, event for event and in its result, the run
    in which the directory is created; the output phase goes on from the
    makedirs call to the writing of raw_blast_results.txt in that directory,
    and it is this write that succeeds or fails. *)
Theorem makedirs_failure_ignored (w : World) (o : Options) (cmd : string)
    (raw : list string) (hit removed : gset string) :
  makedirs w (outputdir o) = false ->
  let p := join (outputdir o) "raw_blast_results.txt" in
  main w o = main (with_makedirs w (fun _ => true)) o /\
  output_phase w o cmd raw hit removed
    = output_phase (with_makedirs w (fun _ => true)) o cmd raw hit removed /\
  (can_write w p = true ->
   exists rest, (output_phase w o cmd raw hit removed).1
                = EvMakedirs (outputdir o) :: EvWrite p (RawLines raw) :: rest) /\
  (can_write w p = false ->
   output_phase w o cmd raw hit removed = ([EvMakedirs (outputdir o)], inl (IOError p))).
Proof.
  intros Hfail p. split; [by rewrite main_with_makedirs |]. split.
  { unfold output_phase, ids_to_seq_file, load_fasta, write_file.
    by rewrite !create_output_folder_eq. }
  subst p. unfold output_phase. rewrite create_output_folder_eq.
  split; intros Hw.
  - rewrite bind_trace. cbn [fst snd]. rewrite bind_trace.
    unfold write_file at 1. rewrite Hw. cbn [emit fst snd app].
    eexists. reflexivity.
  - unfold write_file at 1. rewrite Hw. reflexivity.
Qed.

Lemma makedirs_failure_ignored_witness :
  let w := Example.world Example.all_readable false [Example.mk_hit "Q1" 10 1e-50] in
  let o := Example.options false false in
  let p := join (outputdir o) "raw_blast_results.txt" in
  main w o = main (with_makedirs w (fun _ => true)) o /\
  output_phase w o "formatdb" ["Q1"] {["Q1"]} ∅
    = output_phase (with_makedirs w (fun _ => true)) o "formatdb" ["Q1"] {["Q1"]} ∅ /\
  (can_write w p = true ->
   exists rest, (output_phase w o "formatdb" ["Q1"] {["Q1"]} ∅).1
                = EvMakedirs (outputdir o) :: EvWrite p (RawLines ["Q1"]) :: rest) /\
  (can_write w p = false ->
   output_phase w o "formatdb" ["Q1"] {["Q1"]} ∅
     = ([EvMakedirs (outputdir o)], inl (IOError p))).
Proof.
  intros w o. apply (makedirs_failure_ignored w o). reflexivity.
Defined.

(** C10. Pre-existing index artifacts are never deleted: when the index build
    is skipped, no file is removed, whatever [no_clean] is; and whenever
    files are removed, the index was built by the run and the files are the
    ones formatdb reported for it. *)
Theorem preexisting_index_untouched (w : World) (o : Options) :
  (no_format_db o = true -> none_of is_remove (main w o).1) /\
  (forall ps, EvRemove ps ∈ (main w o).1 ->
     no_format_db o = false /\ ps = built_artifacts w o /\
     exists app_result,
       formatdb w (split (abspath w (subjectdb o))).1 (absolute_subject_db w o)
         = inr app_result /\
       ps = omap id app_result).
Proof.
  assert (forall ps, EvRemove ps ∈ (main w o).1 ->
     no_format_db o = false /\ ps = built_artifacts w o /\
     exists app_result,
       formatdb w (split (abspath w (subjectdb o))).1 (absolute_subject_db w o)
         = inr app_result /\
       ps = omap id app_result) as Honly.
  { intros ps H. apply main_remove_inv in H as (_ & _ & Hbuild & t & idx & Hidx & ->).
    split; [done |]. split; [by eapply index_phase_build |].
    revert Hidx. unfold index_phase. rewrite Hbuild. cbn [negb].
    destruct (split _) as [d f]. cbn [fst].
    destruct (formatdb w d _) as [e | r]; simpl; [discriminate |].
    intros [= _ <-]. by exists r. }
  split; [| exact Honly].
  intros Hskip ev Hev. destruct ev; try reflexivity.
  apply Honly in Hev as [Hbuild _]. congruence.
Qed.

(** ** The option parser *)

(** Parsing leaves a destination alone unless a flag of an option with that
    destination is given. *)
Lemma parse_args_keeps (opts : list make_option) (d : string)
    (args : list (string * optval)) (vals vals' : gmap string optval) :
  parse_args opts args vals = inr vals' ->
  (forall flag v o, (flag, v) ∈ args -> find_option opts flag = Some o ->
                    opt_dest o <> d) ->
  vals' !! d = vals !! d.
Proof.
  revert vals. induction args as [|[flag v] args IH]; intros vals; simpl.
  - by intros [= <-].
  - destruct (find_option opts flag) as [o|] eqn:Hfind; [| discriminate].
    intros Hparse Hother. rewrite (IH _ Hparse).
    + apply lookup_insert_ne. apply (Hother flag v o); [left | exact Hfind].
    + intros flag' v' o' Hin. apply (Hother flag' v' o'). by right.
Qed.

Lemma find_option_other (temp_dir : path) (flag : string) (o : make_option) :
  flag ∉ tuning_flags ->
  find_option (script_options temp_dir) flag = Some o ->
  opt_dest o ∉ tuning_dests.
Proof.
  intros Hflag. unfold find_option, script_options, required_options,
    optional_options. cbn [app find opt_flags].
  repeat (case_bool_decide as Hin;
          [ first [ exfalso; apply Hflag; unfold tuning_flags;
                    revert Hin; rewrite !elem_of_cons; tauto
                  | intros [= <-]; cbn [opt_dest]; unfold tuning_dests;
                    rewrite !elem_of_cons, elem_of_nil; intuition discriminate ]
          | clear Hin ]).
  discriminate.
Qed.

Lemma defaults_tuning (temp_dir : path) :
  let vals := defaults (script_options temp_dir) in
  vals !! "e_value" = Some (VFloat 1e-10) /\
  vals !! "percent_aligned" = Some (VFloat 0.97) /\
  vals !! "max_hits" = Some (VInt 100) /\
  vals !! "wordsize" = Some (VInt 28) /\
  vals !! "no_format_db" = Some (VBool false) /\
  vals !! "no_clean" = Some (VBool false).
Proof.
  unfold defaults, script_options, required_options, optional_options.
  cbn [app foldl opt_dest opt_default]. repeat split; by simplify_map_eq.
Qed.

(** C8. Default configuration values: on a command line that gives none of
    the flags of these options, the e-value cutoff is 1e-10, the
    percent-aligned cutoff 0.97, max-hits 100, the word size 28, and the
    skip-index-build and preserve-artifacts flags are off; these are the
    values [main] then reads. *)
Theorem default_configuration (temp_dir : path) (args : list (string * optval))
    (vals : gmap string optval) :
  parse_command_line temp_dir args = inr vals ->
  (forall flag v, (flag, v) ∈ args -> flag ∉ tuning_flags) ->
  (vals !! "e_value" = Some (VFloat 1e-10) /\
   vals !! "percent_aligned" = Some (VFloat 0.97) /\
   vals !! "max_hits" = Some (VInt 100) /\
   vals !! "wordsize" = Some (VInt 28) /\
   vals !! "no_format_db" = Some (VBool false) /\
   vals !! "no_clean" = Some (VBool false)) /\
  forall o, options_of_values vals = Some o ->
    e_value o = 1e-10%float /\ percent_aligned o = 0.97%float /\
    max_hits o = 100%Z /\ wordsize o = 28%Z /\
    no_format_db o = false /\ no_clean o = false.
Proof.
  unfold parse_command_line. intros Hparse Hflags.
  assert (forall d, d ∈ tuning_dests ->
            vals !! d = defaults (script_options temp_dir) !! d) as Hkeep.
  { intros d Hd. apply (parse_args_keeps _ d _ _ _ Hparse).
    intros flag v o Hin Hfind <-.
    exact (find_option_other temp_dir flag o (Hflags flag v Hin) Hfind Hd). }
  destruct (defaults_tuning temp_dir) as (He & Hp & Hm & Hw & Hn & Hc).
  assert (vals !! "e_value" = Some (VFloat 1e-10) /\
          vals !! "percent_aligned" = Some (VFloat 0.97) /\
          vals !! "max_hits" = Some (VInt 100) /\
          vals !! "wordsize" = Some (VInt 28) /\
          vals !! "no_format_db" = Some (VBool false) /\
          vals !! "no_clean" = Some (VBool false)) as Hvals.
  { repeat split; (rewrite Hkeep; [assumption |]); unfold tuning_dests;
      rewrite !elem_of_cons; tauto. }
  split; [exact Hvals |].
  destruct Hvals as (He' & Hp' & Hm' & Hw' & Hn' & Hc').
  intros o. unfold options_of_values, get_str, get_float, get_int, get_bool.
  rewrite He', Hp', Hm', Hw', Hn', Hc'.
  destruct (vals !! "querydb") as [[]|]; try discriminate.
  destruct (vals !! "subjectdb") as [[]|]; try discriminate.
  destruct (vals !! "outputdir") as [[]|]; try discriminate.
  destruct (vals !! "working_dir") as [[]|]; try discriminate.
  cbn. intros [= <-]. cbn. repeat split.
Qed.

Lemma default_configuration_witness :
  let vals : gmap string optval :=
    <["outputdir" := VStr "out"]> (<["subjectdb" := VStr "db/ref.fna"]>
      (<["querydb" := VStr "seqs.fna"]> (defaults (script_options "/tmp")))) in
  (vals !! "e_value" = Some (VFloat 1e-10) /\
   vals !! "percent_aligned" = Some (VFloat 0.97) /\
   vals !! "max_hits" = Some (VInt 100) /\
   vals !! "wordsize" = Some (VInt 28) /\
   vals !! "no_format_db" = Some (VBool false) /\
   vals !! "no_clean" = Some (VBool false)) /\
  forall o, options_of_values vals = Some o ->
    e_value o = 1e-10%float /\ percent_aligned o = 0.97%float /\
    max_hits o = 100%Z /\ wordsize o = 28%Z /\
    no_format_db o = false /\ no_clean o = false.
Proof.
  intros vals.
  apply (default_configuration "/tmp"
           [("-i", VStr "seqs.fna"); ("-d", VStr "db/ref.fna"); ("-o", VStr "out")]).
  - reflexivity.
  - intros flag v Hin. apply list_elem_of_In in Hin. simpl in Hin.
    unfold tuning_flags. rewrite list_elem_of_In. simpl.
    destruct Hin as [[= <- _] | [[= <- _] | [[= <- _] | []]]]; intuition discriminate.
Defined.

(** ** The scenarios of the specification *)

(** Scenario A: one record of Q1 covering the whole query. *)
Example scenario_A :
  hit_filter 1e-10 0.97 Example.query_records [Example.mk_hit "Q1" 10 1e-50]
    = inr ({["Q1"]}, ∅) /\
  included_ids (ids_from_fasta_lines Example.query_records) {["Q1"]} = {["Q2"; "Q3"]}.
Proof. split; vm_compute; reflexivity. Qed.

(** Scenario B: the record covers half of the query only. *)
Example scenario_B :
  hit_filter 1e-10 0.97 Example.query_records [Example.mk_hit "Q1" 5 1e-50]
    = inr (∅, {["Q1"]}) /\
  included_ids (ids_from_fasta_lines Example.query_records) ∅ = {["Q1"; "Q2"; "Q3"]}.
Proof. split; vm_compute; reflexivity. Qed.

(** Scenario C: one record fails the e-value cutoff, another passes both. *)
Example scenario_C :
  hit_filter 1e-10 0.97 Example.query_records
    [Example.mk_hit "Q1" 10 1e-5; Example.mk_hit "Q1" 10 1e-50]
    = inr ({["Q1"]}, ∅).
Proof. vm_compute. reflexivity. Qed.

(** Scenario D: no record at all. *)
Example scenario_D :
  hit_filter 1e-10 0.97 Example.query_records [] = inr (∅, ∅) /\
  seqs_from_file ∅ Example.query_records = [] /\
  seqs_from_file (included_ids (ids_from_fasta_lines Example.query_records) ∅)
    Example.query_records = Example.query_records.
Proof. repeat split; vm_compute; reflexivity. Qed.

(** A record of a query that is not in the query file. *)
Example unknown_query :
  hit_filter 1e-10 0.97 Example.query_records [Example.mk_hit "Q9" 10 1e-50]
    = inl (ConsistencyError "Q9").
Proof. vm_compute. reflexivity. Qed.

(** * Further properties of the script *)

(** ** The run after the index phase *)

Lemma main_after_index (w : World) (o : Options) :
  check_options w o = None ->
  main w o = bind (index_phase w o (absolute_subject_db w o)) (after_index w o).
Proof. intros Hopt. unfold main, after_index. by rewrite Hopt. Qed.

Lemma cleanup_no (k : event -> bool) (o : Options) (fps : list path) :
  (forall ps, k (EvRemove ps) = false) -> none_of k (cleanup o fps).1.
Proof.
  intros Hk. rewrite cleanup_eq. cbn [fst].
  destruct (negb (no_clean o) && negb (no_format_db o)); auto with trace.
Qed.

Lemma after_index_no (k : event -> bool) (w : World) (o : Options)
    (idx : string * list path) :
  (forall p, k (EvOpenRead p) = false) ->
  (forall q s e h wd mr ws, k (EvBlast q s e h wd mr ws) = false) ->
  (forall p, k (EvMakedirs p) = false) ->
  (forall p c, k (EvWrite p c) = false) ->
  (forall ps, k (EvRemove ps) = false) ->
  none_of k (after_index w o idx).1.
Proof.
  intros Ho Hb Hm Hw Hr. unfold after_index.
  apply none_of_bind; [by apply find_homologs_no |].
  intros [[raw hit] removed] _.
  apply none_of_bind; [by apply output_phase_no |].
  intros _ _. by apply cleanup_no.
Qed.

Lemma none_of_filter (k : event -> bool) (t : list event) :
  none_of k t -> List.filter k t = [].
Proof.
  induction t as [|ev t IH]; intros H; simpl; [done |].
  rewrite (H ev) by left. apply IH. intros ev' Hev'. apply H. by right.
Qed.

(** X1. formatdb is called exactly when the options pass their validation and
    [--no_format_db] is not given; it is then run in the directory of the
    absolute subject path, on the subject path made absolute. *)
Theorem formatdb_called_iff (w : World) (o : Options) (d s : path) :
  EvFormatDb d s ∈ (main w o).1 <->
  check_options w o = None /\ no_format_db o = false /\
  d = (split (abspath w (subjectdb o))).1 /\ s = absolute_subject_db w o.
Proof.
  destruct (check_options w o) as [msg|] eqn:Hopt.
  { unfold main. rewrite Hopt. split; [intros H; inversion H | intros [[=] _]]. }
  rewrite (main_after_index w o Hopt), bind_trace, elem_of_app.
  assert (forall idx, EvFormatDb d s ∉ (after_index w o idx).1) as Hafter.
  { intros idx H.
    by apply (after_index_no is_formatdb w o idx (fun _ => eq_refl)
                (fun _ _ _ _ _ _ _ => eq_refl) (fun _ => eq_refl)
                (fun _ _ => eq_refl) (fun _ => eq_refl)) in H. }
  unfold index_phase. destruct (no_format_db o); cbn [negb].
  - split; [| intros (_ & [=] & _)]. intros [H | H].
    + rewrite bind_trace in H. apply elem_of_app in H as [H | H].
      * pose proof (open_all_spec w (index_files (absolute_subject_db w o))) as Hspec.
        destruct (find _ _) as [db_f|].
        -- destruct Hspec as (_ & b & a & _ & Ht). rewrite Ht in H.
           apply list_elem_of_fmap in H as (p & [=] & _).
        -- rewrite Hspec in H. apply list_elem_of_fmap in H as (p & [=] & _).
      * destruct (open_all w _).2; inversion H.
    + destruct (bind _ _).2 as [e | idx]; [inversion H | by apply Hafter in H].
  - destruct (split (abspath w (subjectdb o))) as [dir file]. cbn [fst].
    destruct (formatdb w dir _) as [e | r]; cbn [bind emit lift ret fst snd app].
    + split.
      * intros [H | H]; [| inversion H].
        apply list_elem_of_singleton in H as [= -> ->]. done.
      * intros (_ & _ & -> & ->). left. left.
    + split.
      * intros [H | H]; [| by apply Hafter in H].
        apply list_elem_of_singleton in H as [= -> ->]. done.
      * intros (_ & _ & -> & ->). left. left.
Qed.

(** X2. The search is run only after the index phase has succeeded and the
    query file has been read, and it is run on the query file, on the subject
    path made absolute and with the cutoff, hit limit, working directory,
    matrix directory and word size of the options. *)
Theorem search_after_index (w : World) (o : Options) (q s : path) (e : float)
    (h : Z) (wd : path) (mr : option path) (ws : Z) :
  EvBlast q s e h wd mr ws ∈ (main w o).1 ->
  (exists t idx, index_phase w o (absolute_subject_db w o) = (t, inr idx)) /\
  (exists seqs, read_fasta w (querydb o) = inr seqs) /\
  q = querydb o /\ s = absolute_subject_db w o /\ e = e_value o /\
  h = max_hits o /\ wd = working_dir o /\ mr = blastmatroot o /\ ws = wordsize o.
Proof.
  destruct (check_options w o) as [msg|] eqn:Hopt.
  { unfold main. rewrite Hopt. intros H. inversion H. }
  rewrite (main_after_index w o Hopt), bind_trace, elem_of_app.
  pose proof (index_phase_no is_search w o (absolute_subject_db w o)
                (fun _ => eq_refl) (fun _ _ => eq_refl)) as Hidx.
  destruct (index_phase w o _) as [t [err | idx]]; cbn [fst snd] in *.
  { intros [H | H]; [by apply Hidx in H | inversion H]. }
  intros [H | H]; [by apply Hidx in H |].
  split; [eauto |]. revert H. unfold after_index. rewrite bind_trace, elem_of_app.
  intros [H | H].
  - revert H. unfold find_homologs, load_fasta. rewrite read_query_nil.
    destruct (read_fasta w (querydb o)) as [err | seqs]; cbn [bind emit lift fst snd app].
    { intros H. apply list_elem_of_singleton in H. discriminate. }
    split; [eauto |].
    assert (EvBlast q s e h wd mr ws =
            EvBlast (querydb o) (absolute_subject_db w o) (e_value o) (max_hits o)
              (working_dir o) (blastmatroot o) (wordsize o)) as Heq.
    { revert H. destruct (blast w _ _ _ _ _ _ _) as [err | out];
        cbn [bind emit lift ret fst snd app].
      - rewrite !elem_of_cons, elem_of_nil. intros [[=] | [H | []]]; done.
      - destruct (hit_filter _ _ seqs out.2); cbn [bind emit lift ret fst snd app];
          rewrite !elem_of_cons, elem_of_nil; intros [[=] | [H | []]]; done. }
    by injection Heq as -> -> -> -> -> -> ->.
  - exfalso. destruct (find_homologs w _ _ _ _ _ _ _ _).2 as [err | [[raw hit] rem]];
      [inversion H |].
    rewrite bind_trace in H. apply elem_of_app in H as [H | H].
    + by apply (output_phase_no is_search w o idx.1 raw hit rem (fun _ => eq_refl)
                  (fun _ => eq_refl) (fun _ _ => eq_refl)) in H.
    + destruct (output_phase w o _ _ _ _).2; [inversion H |].
      by apply (cleanup_no is_search o idx.2 (fun _ => eq_refl)) in H.
Qed.

Lemma search_after_index_witness :
  let w := Example.world Example.all_readable true [Example.mk_hit "Q1" 10 1e-50] in
  let o := Example.options true false in
  (exists t idx, index_phase w o (absolute_subject_db w o) = (t, inr idx)) /\
  (exists seqs, read_fasta w (querydb o) = inr seqs) /\
  "seqs.fna" = querydb o /\ "/home/user/db/ref.fna" = absolute_subject_db w o /\
  1e-10%float = e_value o /\ 100%Z = max_hits o /\ "/tmp" = working_dir o /\
  None = blastmatroot o /\ 28%Z = wordsize o.
Proof.
  intros w o.
  apply (search_after_index w o "seqs.fna" "/home/user/db/ref.fna" 1e-10 100 "/tmp"
           None 28).
  vm_compute. do 6 right. left.
Defined.

(** X3. The output directory is created only once the index phase and the
    search have succeeded, and it is the directory given by [-o]: a run that
    fails earlier calls [makedirs] on nothing. *)
Theorem output_dir_created_iff (w : World) (o : Options) (p : path) :
  EvMakedirs p ∈ (main w o).1 <->
  p = outputdir o /\ check_options w o = None /\
  (exists t idx, index_phase w o (absolute_subject_db w o) = (t, inr idx)) /\
  (exists found,
     (find_homologs w (querydb o) (absolute_subject_db w o) (e_value o)
        (max_hits o) (working_dir o) (blastmatroot o) (wordsize o)
        (percent_aligned o)).2 = inr found).
Proof.
  destruct (check_options w o) as [msg|] eqn:Hopt.
  { unfold main. rewrite Hopt. split; [intros H; inversion H | intros (_ & [=] & _)]. }
  rewrite (main_after_index w o Hopt), bind_trace, elem_of_app.
  pose proof (index_phase_no is_makedirs w o (absolute_subject_db w o)
                (fun _ => eq_refl) (fun _ _ => eq_refl)) as Hidx.
  destruct (index_phase w o _) as [t [err | idx]]; cbn [fst snd] in *.
  { split.
    - intros [H | H]; [by apply Hidx in H | inversion H].
    - intros (_ & _ & (t' & idx & [=]) & _). }
  unfold after_index. rewrite bind_trace, elem_of_app.
  pose proof (find_homologs_no is_makedirs w (querydb o) (absolute_subject_db w o)
                (e_value o) (max_hits o) (working_dir o) (blastmatroot o)
                (wordsize o) (percent_aligned o) (fun _ => eq_refl) eq_refl) as Hfind.
  destruct (find_homologs w _ _ _ _ _ _ _ _) as [tf [err | [[raw hit] rem]]];
    cbn [fst snd] in *.
  { split.
    - intros [H | [H | H]]; [by apply Hidx in H | by apply Hfind in H | inversion H].
    - intros (_ & _ & _ & found & [=]). }
  rewrite bind_trace, elem_of_app. unfold output_phase at 1.
  rewrite create_output_folder_eq, bind_trace. cbn [fst snd].
  split.
  - intros [H | [H | [H | H]]]; [by apply Hidx in H | by apply Hfind in H | |].
    + apply elem_of_app in H as [H | H].
      * apply list_elem_of_singleton in H as [= ->]. repeat split; eauto.
      * exfalso. revert H.
        match goal with |- _ ∈ ?m.1 -> _ =>
          assert (none_of is_makedirs m.1) as Hno; [| intros H; by apply Hno in H] end.
        apply none_of_bind; [by apply write_file_no | intros _ _].
        apply none_of_bind; [by apply ids_to_seq_file_no | intros matching _].
        apply none_of_bind; [by apply load_fasta_no | intros seqs _].
        apply none_of_bind; [by apply ids_to_seq_file_no | intros _ _].
        by apply write_file_no.
    + exfalso. destruct (output_phase w o _ _ _ _).2; [inversion H |].
      by apply (cleanup_no is_makedirs o idx.2 (fun _ => eq_refl)) in H.
  - intros (-> & _). right. right. left. apply elem_of_app. left. left.
Qed.

Lemma none_of_written (t : list event) :
  none_of is_write t -> omap written_path t = [].
Proof.
  induction t as [|ev t IH]; intros H; [done |].
  assert (is_write ev = false) as Hev by (apply H; left).
  destruct ev; try discriminate; cbn; apply IH; intros ev' Hev'; apply H; by right.
Qed.

Ltac written_prefix :=
  simpl; split; [eexists; reflexivity | first [discriminate | reflexivity]].

(** X4. A run writes the four output files in the order raw_blast_results.txt,
    matching.fna, non-matching.fna, sequence_exclusion.log and writes no other
    file: the files written by any run, completed or not, are an initial part
    of this list, and those of a completed run are the whole list. *)
Theorem outputs_in_order (w : World) (o : Options) :
  omap written_path (main w o).1 `prefix_of` output_paths o /\
  ((main w o).2 = inr tt -> omap written_path (main w o).1 = output_paths o).
Proof.
  destruct (check_options w o) as [msg|] eqn:Hopt.
  { unfold main. rewrite Hopt. cbn. split; [apply prefix_nil | discriminate]. }
  rewrite (main_after_index w o Hopt), bind_trace, bind_result, omap_app.
  rewrite (none_of_written _ (index_phase_no is_write w o (absolute_subject_db w o)
                                (fun _ => eq_refl) (fun _ _ => eq_refl))).
  destruct (index_phase w o _) as [t [err | idx]]; cbn [fst snd app].
  { split; [apply prefix_nil | discriminate]. }
  unfold after_index. rewrite bind_trace, bind_result, omap_app.
  rewrite (none_of_written _ (find_homologs_no is_write w (querydb o)
             (absolute_subject_db w o) (e_value o) (max_hits o) (working_dir o)
             (blastmatroot o) (wordsize o) (percent_aligned o)
             (fun _ => eq_refl) eq_refl)).
  destruct (find_homologs w _ _ _ _ _ _ _ _) as [tf [err | [[raw hit] rem]]];
    cbn [fst snd app].
  { split; [apply prefix_nil | discriminate]. }
  unfold output_phase, ids_to_seq_file, load_fasta, write_file, output_paths.
  rewrite create_output_folder_eq, cleanup_eq.
  destruct (can_write w (join _ "raw_blast_results.txt"));
    cbn [bind lift emit ret raise fst snd app]; [| by written_prefix].
  destruct (read_query w [_] (querydb o)) as [err | seqs1];
    cbn [bind lift emit ret raise fst snd app]; [by written_prefix |].
  destruct (can_write w (join _ "matching.fna"));
    cbn [bind lift emit ret raise fst snd app]; [| by written_prefix].
  destruct (read_query w [_; _] (querydb o)) as [err | seqs2];
    cbn [bind lift emit ret raise fst snd app]; [by written_prefix |].
  destruct (can_write w (join _ "non-matching.fna"));
    cbn [bind lift emit ret raise fst snd app]; [| by written_prefix].
  destruct (can_write w (join _ "sequence_exclusion.log"));
    cbn [bind lift emit ret raise fst snd app]; [| by written_prefix].
  destruct (negb (no_clean o) && negb (no_format_db o)); by written_prefix.
Qed.

(** ** The retention flag *)

Lemma index_phase_set_no_clean (w : World) (o : Options) (b : bool) (s : path) :
  index_phase w (set_no_clean o b) s = index_phase w o s.
Proof. reflexivity. Qed.

Lemma filter_app_bool {A} (k : A -> bool) (l1 l2 : list A) :
  List.filter k (l1 ++ l2) = (List.filter k l1 ++ List.filter k l2)%list.
Proof. induction l1 as [|x l1 IH]; simpl; [done |]. destruct (k x); simpl; by rewrite IH. Qed.

Lemma with_report_options_other (lines : list string) (o : Options)
    (t : list event) :
  none_of is_write t -> map (with_report_options lines o) t = t.
Proof.
  induction t as [|ev t IH]; intros H; [done |].
  assert (is_write ev = false) as Hev by (apply H; left).
  cbn [map]. rewrite IH by (intros ev' Hev'; apply H; by right).
  by destruct ev.
Qed.

Lemma with_report_options_filter (lines : list string) (o : Options)
    (t : list event) :
  map (with_report_options lines o) (List.filter (fun ev => negb (is_remove ev)) t)
  = List.filter (fun ev => negb (is_remove ev)) (map (with_report_options lines o) t).
Proof.
  induction t as [|ev t IH]; [done |]. cbn [map List.filter].
  assert (is_remove (with_report_options lines o ev) = is_remove ev) as ->.
  { destruct ev as [| | | | p c |]; try reflexivity. by destruct c. }
  destruct (negb (is_remove ev)); cbn [map]; by rewrite IH.
Qed.

(** The output phase does not look at [--no_clean], except to hand the
    options to the log. *)
Lemma output_phase_set_no_clean (w : World) (o : Options) (b : bool) (cmd : string)
    (raw : list string) (hit rem : gset string) :
  (output_phase w (set_no_clean o b) cmd raw hit rem).2
    = (output_phase w o cmd raw hit rem).2 /\
  map (with_report_options (format_options_as_lines w o) o)
    (output_phase w (set_no_clean o b) cmd raw hit rem).1
    = (output_phase w o cmd raw hit rem).1.
Proof.
  unfold output_phase, ids_to_seq_file, load_fasta, write_file.
  cbn [outputdir querydb set_no_clean]. rewrite !create_output_folder_eq.
  destruct (can_write w (join _ "raw_blast_results.txt"));
    cbn [bind lift emit ret raise fst snd app]; [| done].
  destruct (read_query w [_] (querydb o)) as [err | seqs1];
    cbn [bind lift emit ret raise fst snd app]; [done |].
  destruct (can_write w (join _ "matching.fna"));
    cbn [bind lift emit ret raise fst snd app]; [| done].
  destruct (read_query w [_; _] (querydb o)) as [err | seqs2];
    cbn [bind lift emit ret raise fst snd app]; [done |].
  destruct (can_write w (join _ "non-matching.fna"));
    cbn [bind lift emit ret raise fst snd app]; [| done].
  destruct (can_write w (join _ "sequence_exclusion.log"));
    cbn [bind lift emit ret raise fst snd app]; done.
Qed.

(** X5. [--no_clean] changes nothing but the final removal and the options
    the log is given: with the flag set or unset the run has the same result
    and, the removal apart, the same events in the same order, up to the
    options and option lines recorded in the log. *)
Theorem no_clean_only_affects_cleanup (w : World) (o : Options) (b : bool) :
  check_options w (set_no_clean o b) = check_options w o ->
  (main w (set_no_clean o b)).2 = (main w o).2 /\
  map (with_report_options (format_options_as_lines w o) o)
    (List.filter (fun ev => negb (is_remove ev)) (main w (set_no_clean o b)).1)
    = List.filter (fun ev => negb (is_remove ev)) (main w o).1.
Proof.
  intros Hcheck. rewrite with_report_options_filter.
  destruct (check_options w o) as [msg|] eqn:Hopt.
  { unfold main. by rewrite Hcheck, Hopt. }
  rewrite (main_after_index w o Hopt), (main_after_index _ _ Hcheck).
  change (absolute_subject_db w (set_no_clean o b)) with (absolute_subject_db w o).
  rewrite index_phase_set_no_clean, !bind_trace, !bind_result, !map_app,
    !filter_app_bool.
  rewrite (with_report_options_other _ _ _
             (index_phase_no is_write w o (absolute_subject_db w o)
                (fun _ => eq_refl) (fun _ _ => eq_refl))).
  destruct (index_phase w o _) as [t [err | idx]]; cbn [fst snd]; [done |].
  unfold after_index.
  change (absolute_subject_db w (set_no_clean o b)) with (absolute_subject_db w o).
  cbn [querydb e_value max_hits working_dir blastmatroot wordsize percent_aligned
       set_no_clean].
  rewrite !bind_trace, !bind_result, !map_app, !filter_app_bool.
  rewrite (with_report_options_other _ _ _
             (find_homologs_no is_write w (querydb o) (absolute_subject_db w o)
                (e_value o) (max_hits o) (working_dir o) (blastmatroot o)
                (wordsize o) (percent_aligned o) (fun _ => eq_refl) eq_refl)).
  destruct (find_homologs w _ _ _ _ _ _ _ _) as [tf [err | [[raw hit] rem]]];
    cbn [fst snd]; [done |].
  destruct (output_phase_set_no_clean w o b idx.1 raw hit rem) as [Hres Htrace].
  rewrite !bind_trace, !bind_result, !map_app, !filter_app_bool, Htrace, Hres.
  destruct (output_phase w o _ _ _ _) as [tout [err | []]]; cbn [fst snd]; [done |].
  rewrite !cleanup_eq. cbn [fst snd no_clean no_format_db set_no_clean].
  split; [done |]. do 3 f_equal.
  by destruct b, (no_clean o), (no_format_db o).
Qed.

Lemma no_clean_only_affects_cleanup_witness :
  let w := Example.world Example.all_readable true [Example.mk_hit "Q1" 10 1e-50] in
  let o := Example.options false false in
  (main w (set_no_clean o true)).2 = (main w o).2 /\
  map (with_report_options (format_options_as_lines w o) o)
    (List.filter (fun ev => negb (is_remove ev)) (main w (set_no_clean o true)).1)
    = List.filter (fun ev => negb (is_remove ev)) (main w o).1.
Proof.
  intros w o. apply (no_clean_only_affects_cleanup w o true). reflexivity.
Defined.

(** ** Paths *)

Lemma startswith_slash (s : string) :
  startswith s "/" = true <-> exists rest, s = String "/" rest.
Proof.
  unfold startswith. destruct s as [|c s].
  - split; [discriminate | intros [? [=]]].
  - change (String.prefix "/" (String c s))
      with (if ascii_dec "/" c then String.prefix "" s else false).
    destruct (ascii_dec "/" c) as [<- | Hne].
    + split; [eauto | by destruct s].
    + split; [discriminate | intros [rest [= Hc _]]; congruence].
Qed.

(** Joining distinct relative names to one directory gives distinct paths. *)
Lemma join_inj (d a b : path) :
  startswith a "/" = false -> startswith b "/" = false ->
  join d a = join d b -> a = b.
Proof.
  unfold join. intros -> ->.
  destruct (bool_decide (d = "") || endswith_slash d); intros H.
  - by apply (inj (String.append d)) in H.
  - apply (inj (String.append d)) in H. by apply (inj (String.append "/")) in H.
Qed.

(** X6. The four output files of a run are four different paths, whatever the
    output directory: no output overwrites another. *)
Theorem output_paths_distinct (o : Options) : NoDup (output_paths o).
Proof.
  unfold output_paths. repeat constructor;
    rewrite ?elem_of_cons, ?elem_of_nil;
    intros H; repeat destruct H as [H | H]; try done;
    by apply join_inj in H.
Qed.

(** X7. The subject path handed to formatdb and to the search is absolute
    whenever the working directory is: a path given absolute is kept as it is,
    a relative one is joined to the working directory. *)
Theorem subject_db_absolute (w : World) (o : Options) :
  startswith (getcwd w) "/" = true ->
  startswith (absolute_subject_db w o) "/" = true /\
  (startswith (subjectdb o) "/" = true -> absolute_subject_db w o = subjectdb o) /\
  (startswith (subjectdb o) "/" = false ->
   exists sep, absolute_subject_db w o = getcwd w +:+ sep +:+ subjectdb o /\
               (sep = "" \/ sep = "/")).
Proof.
  intros Hcwd. unfold absolute_subject_db.
  destruct (startswith (subjectdb o) "/") eqn:Hs.
  - split; [done |]. split; [done | discriminate].
  - split; [| split; [discriminate |]].
    + apply startswith_slash in Hcwd as [rest ->]. unfold join. rewrite Hs.
      destruct (bool_decide _ || _); apply startswith_slash; simpl; eauto.
    + intros _. unfold join. rewrite Hs.
      destruct (bool_decide _ || _); [exists "" | exists "/"]; auto.
Qed.

Lemma subject_db_absolute_witness :
  let w := Example.world Example.all_readable true [] in
  let o := Example.options false false in
  startswith (absolute_subject_db w o) "/" = true /\
  (startswith (subjectdb o) "/" = true -> absolute_subject_db w o = subjectdb o) /\
  (startswith (subjectdb o) "/" = false ->
   exists sep, absolute_subject_db w o = getcwd w +:+ sep +:+ subjectdb o /\
               (sep = "" \/ sep = "/")).
Proof.
  intros w o. apply (subject_db_absolute w o). reflexivity.
Defined.

Lemma append_empty_r (s : string) : s +:+ "" = s.
Proof.
  induction s as [|c s IH]; [done |].
  change (String c (s +:+ "") = String c s). by rewrite IH.
Qed.

Lemma prefix_append (s t : string) : String.prefix s (s +:+ t) = true.
Proof.
  induction s as [|c s IH]; [by destruct t |].
  change (String.prefix (String c s) (String c s +:+ t))
    with (if ascii_dec c c then String.prefix s (s +:+ t) else false).
  destruct (ascii_dec c c); [exact IH | done].
Qed.

(** X8. The files checked when the index build is skipped are five different
    paths, each the subject path followed by an extension, and none of them is
    the subject file itself. *)
Theorem index_files_distinct (subject_db : path) :
  length (index_files subject_db) = 5 /\
  NoDup (index_files subject_db) /\
  forall f, f ∈ index_files subject_db ->
    startswith f subject_db = true /\ f <> subject_db.
Proof.
  unfold index_files, db_ext. cbn [map length]. split; [done |]. split.
  - repeat constructor; rewrite ?elem_of_cons, ?elem_of_nil;
      intros H; repeat destruct H as [H | H]; try done;
      by apply (inj (String.append subject_db)) in H.
  - intros f Hf. rewrite !elem_of_cons, elem_of_nil in Hf.
    assert (exists ext, f = subject_db +:+ ext /\ ext <> "") as (ext & -> & Hext).
    { repeat destruct Hf as [Hf | Hf]; try done; eexists; by split. }
    split; [apply prefix_append |].
    intros H. rewrite <- (append_empty_r subject_db) in H at 2.
    by apply (inj (String.append subject_db)) in H.
Qed.

(** ** Flags without argument *)

(** Once [True] is stored at a destination whose options are all
    [store_true], it stays, and a flag of such an option stores it. *)
Lemma parse_args_store_true (opts : list make_option) (d : string)
    (args : list (string * optval)) (vals vals' : gmap string optval) :
  (forall flag o, find_option opts flag = Some o -> opt_dest o = d ->
                  opt_action_of o = StoreTrue) ->
  parse_args opts args vals = inr vals' ->
  vals !! d = Some (VBool true) \/
  (exists flag v o, (flag, v) ∈ args /\ find_option opts flag = Some o /\
                    opt_dest o = d) ->
  vals' !! d = Some (VBool true).
Proof.
  intros Hact. revert vals. induction args as [|[flag v] args IH]; intros vals; simpl.
  - intros [= <-] [H | (flag & v & o & Hin & _)]; [done | inversion Hin].
  - destruct (find_option opts flag) as [o|] eqn:Hfind; [| discriminate].
    intros Hparse Hset. apply (IH _ Hparse).
    destruct (decide (opt_dest o = d)) as [Hd | Hd].
    + left. rewrite (Hact flag o Hfind Hd), Hd. apply lookup_insert_eq.
    + destruct Hset as [Hset | (flag' & v' & o' & Hin & Hfind' & Hd')].
      * left. by rewrite lookup_insert_ne.
      * apply elem_of_cons in Hin as [[= -> ->] | Hin]; [congruence |].
        right. eauto 6.
Qed.

Lemma find_option_store_true (temp_dir : path) (flag : string) (o : make_option) :
  find_option (script_options temp_dir) flag = Some o ->
  opt_dest o = "no_clean" \/ opt_dest o = "no_format_db" ->
  opt_action_of o = StoreTrue.
Proof.
  unfold find_option, script_options, required_options, optional_options.
  cbn [app find opt_flags].
  repeat (case_bool_decide as Hin;
          [ intros [= <-]; cbn [opt_dest opt_action_of];
            intros [H | H]; first [discriminate | reflexivity]
          | clear Hin ]).
  discriminate.
Qed.

(** X9. The flags without argument stick: on every command line the parser
    accepts, [--no_clean] anywhere on it leaves [no_clean] set, and [-n] or
    [--no_format_db] anywhere on it leaves [no_format_db] set, whatever else
    the line holds and whatever argument the flag was paired with. *)
Theorem store_true_flags_stick (temp_dir : path) (args : list (string * optval))
    (vals : gmap string optval) (flag : string) (v : optval) :
  parse_command_line temp_dir args = inr vals ->
  (flag, v) ∈ args ->
  (flag = "--no_clean" -> vals !! "no_clean" = Some (VBool true)) /\
  (flag = "-n" \/ flag = "--no_format_db" ->
   vals !! "no_format_db" = Some (VBool true)).
Proof.
  unfold parse_command_line. intros Hparse Hin. split.
  - intros ->. apply (parse_args_store_true _ "no_clean" _ _ _
      (fun f o Hf Hd => find_option_store_true temp_dir f o Hf (or_introl Hd)) Hparse).
    right. exists "--no_clean", v. eexists. split; [exact Hin |].
    split; reflexivity.
  - intros Hflag. apply (parse_args_store_true _ "no_format_db" _ _ _
      (fun f o Hf Hd => find_option_store_true temp_dir f o Hf (or_intror Hd)) Hparse).
    right. exists flag, v. eexists. split; [exact Hin |].
    destruct Hflag as [-> | ->]; split; reflexivity.
Qed.

Lemma store_true_flags_stick_witness :
  let vals : gmap string optval :=
    <["e_value" := VFloat 1e-5]> (<["no_format_db" := VBool true]>
      (<["querydb" := VStr "seqs.fna"]> (defaults (script_options "/tmp")))) in
  ("-n" = "--no_clean" -> vals !! "no_clean" = Some (VBool true)) /\
  ("-n" = "-n" \/ "-n" = "--no_format_db" ->
   vals !! "no_format_db" = Some (VBool true)).
Proof.
  intros vals.
  apply (store_true_flags_stick "/tmp"
           [("-i", VStr "seqs.fna"); ("-n", VNone); ("-e", VFloat 1e-5)]
           vals "-n" VNone).
  - reflexivity.
  - right. left.
Defined.

(** ** Splitting a joined path *)

Lemma list_ascii_of_string_app (s t : string) :
  list_ascii_of_string (s +:+ t)
  = (list_ascii_of_string s ++ list_ascii_of_string t)%list.
Proof.
  induction s as [|c s IH]; [done |].
  change (c :: list_ascii_of_string (s +:+ t)
          = c :: (list_ascii_of_string s ++ list_ascii_of_string t)%list).
  by rewrite IH.
Qed.

Lemma split_rev_slash (acc l1 l2 : list ascii) :
  (forall c, c ∈ l1 -> c <> "/"%char) ->
  split_rev acc (l1 ++ "/"%char :: l2) = ("/"%char :: l2, (rev l1 ++ acc)%list).
Proof.
  revert acc. induction l1 as [|c l1 IH]; intros acc Hfree; simpl.
  - by rewrite ?bool_decide_eq_true_2.
  - rewrite bool_decide_eq_false_2 by (apply Hfree; left).
    rewrite IH by (intros c' Hc'; apply Hfree; by right).
    by rewrite <- app_assoc.
Qed.

Lemma rev_last_not_slash (s : string) :
  s <> "" -> endswith_slash s = false ->
  exists c r, rev (list_ascii_of_string s) = c :: r /\ c <> "/"%char.
Proof.
  induction s as [|a s IH]; [done |]. intros _ Hend.
  destruct s as [|b s].
  - simpl in *. exists a, []. split; [done |]. by apply bool_decide_eq_false in Hend.
  - destruct IH as (c & r & Hrev & Hc); [done | exact Hend |].
    exists c, (r ++ [a])%list. split; [| done].
    change (list_ascii_of_string (String a (String b s)))
      with (a :: list_ascii_of_string (String b s)).
    cbn [rev]. by rewrite Hrev.
Qed.

Lemma slash_free_startswith (f : string) :
  slash_free f -> startswith f "/" = false.
Proof.
  intros Hfree. destruct (startswith f "/") eqn:Hs; [| done].
  apply startswith_slash in Hs as [rest ->]. exfalso.
  apply (Hfree "/"%char); [left | done].
Qed.

(** X10. Splitting undoes joining: for a directory that is not empty and does
    not end in a slash and a file name without slash, the path made by [join]
    is directory + "/" + name, and [split] gives back the directory and the
    name. *)
Theorem split_join (d f : path) :
  d <> "" -> endswith_slash d = false -> slash_free f ->
  join d f = d +:+ "/" +:+ f /\ split (join d f) = (d, f).
Proof.
  intros Hd Hend Hfree.
  assert (join d f = d +:+ "/" +:+ f) as Hjoin.
  { unfold join. rewrite (slash_free_startswith f Hfree), Hend.
    by rewrite bool_decide_eq_false_2. }
  split; [exact Hjoin |]. rewrite Hjoin. unfold split.
  rewrite !list_ascii_of_string_app, rev_app_distr.
  change (list_ascii_of_string "/") with ["/"%char].
  cbn [app rev]. rewrite <- app_assoc. cbn [app].
  rewrite split_rev_slash.
  2:{ intros c Hc. apply Hfree. apply list_elem_of_In, in_rev, list_elem_of_In.
      exact Hc. }
  rewrite rev_involutive, app_nil_r.
  destruct (rev_last_not_slash d Hd Hend) as (c & r & Hrev & Hc).
  rewrite Hrev. cbn [drop_slashes].
  rewrite bool_decide_eq_true_2 by done. cbn [drop_slashes].
  rewrite bool_decide_eq_false_2 by done.
  rewrite <- Hrev, rev_involutive, !string_of_list_ascii_of_string. done.
Qed.

Lemma split_join_witness :
  join "/home/user/db" "ref.fna" = "/home/user/db" +:+ "/" +:+ "ref.fna" /\
  split (join "/home/user/db" "ref.fna") = ("/home/user/db", "ref.fna").
Proof.
  apply (split_join "/home/user/db" "ref.fna"); [done | reflexivity |].
  intros c Hc. apply list_elem_of_In in Hc. simpl in Hc.
  repeat destruct Hc as [<- | Hc]; try done.
Defined.

(** ** What the log is given *)

Lemma index_phase_cmd (w : World) (o : Options) t cmd arts :
  index_phase w o (absolute_subject_db w o) = (t, inr (cmd, arts)) ->
  cmd = (if no_format_db o then "None (formatdb not called)"
         else formatdb_base_command w (split (abspath w (subjectdb o))).1
                (absolute_subject_db w o)) /\
  (no_format_db o = true -> arts = index_files (absolute_subject_db w o)).
Proof.
  unfold index_phase. destruct (no_format_db o); cbn [negb].
  - destruct (open_all w _) as [t' [err | []]]; cbn [bind ret]; [discriminate |].
    intros [= _ <- <-]. done.
  - destruct (split _) as [d f]. cbn [fst].
    destruct (formatdb w d _) as [err | r]; cbn [bind emit lift ret]; [discriminate |].
    intros [= _ <- _]. split; [done | discriminate].
Qed.

(** X11. The log of a completed run is given the command that built the
    index, or the text "None (formatdb not called)" when the build was
    skipped, and the very lines of search output that were written to
    raw_blast_results.txt, which are the lines the search returned. *)
Theorem log_records_run (w : World) (o : Options) :
  (main w o).2 = inr tt ->
  exists report recs,
    EvWrite (join (outputdir o) "sequence_exclusion.log") (LogLines report)
      ∈ (main w o).1 /\
    EvWrite (join (outputdir o) "raw_blast_results.txt")
      (RawLines (rep_blast_results report)) ∈ (main w o).1 /\
    blast w (querydb o) (absolute_subject_db w o) (e_value o) (max_hits o)
      (working_dir o) (blastmatroot o) (wordsize o)
      = inr (rep_blast_results report, recs) /\
    rep_formatdb_cmd report
      = (if no_format_db o then "None (formatdb not called)"
         else formatdb_base_command w (split (abspath w (subjectdb o))).1
                (absolute_subject_db w o)).
Proof.
  intros Hok.
  destruct (main_success w o Hok)
    as (t_idx & cmd & arts & seqs & raw & recs & acc & rej & _ & Hidx & _ & Hblast
        & _ & seqs1 & seqs2 & _ & _ & Ht).
  exists (MkReport (format_options_as_lines w o) o cmd raw
            (ids_from_fasta_lines seqs2) acc rej
            (included_ids (ids_from_fasta_lines seqs2) acc)), recs.
  rewrite Ht. cbn [rep_blast_results rep_formatdb_cmd].
  split; [apply pipeline_events_in; unfold pipeline_events, output_events; set_solver |].
  split; [apply pipeline_events_in; unfold pipeline_events, output_events; set_solver |].
  split; [exact Hblast |]. by apply index_phase_cmd in Hidx as [-> _].
Qed.

Lemma log_records_run_witness :
  let w := Example.world Example.all_readable true [Example.mk_hit "Q1" 10 1e-50] in
  let o := Example.options true false in
  exists report recs,
    EvWrite (join (outputdir o) "sequence_exclusion.log") (LogLines report)
      ∈ (main w o).1 /\
    EvWrite (join (outputdir o) "raw_blast_results.txt")
      (RawLines (rep_blast_results report)) ∈ (main w o).1 /\
    blast w (querydb o) (absolute_subject_db w o) (e_value o) (max_hits o)
      (working_dir o) (blastmatroot o) (wordsize o)
      = inr (rep_blast_results report, recs) /\
    rep_formatdb_cmd report
      = (if no_format_db o then "None (formatdb not called)"
         else formatdb_base_command w (split (abspath w (subjectdb o))).1
                (absolute_subject_db w o)).
Proof.
  intros w o. apply (log_records_run w o). vm_compute. reflexivity.
Defined.
